(** * FlowCatalyst Python SDK: a shallow embedding of the client and its records

    The SDK is two modules: [flowcatalyst/types.py] declares three pydantic
    models ([EventType], [Subscription], [DispatchJob]) and an unused
    [ApiResponse] envelope; [flowcatalyst/client.py] declares
    [FlowCatalystClient], whose public methods all go through the private
    [_request].

    [requests] and [pydantic] are not part of the repository, and
    [setup.py] allows every release from requests 2.31 and pydantic 2.5 on.
    Of [requests], the model fixes the two things [client.py] relies on by
    name: the header dictionary of a session and [raise_for_status]. What
    [Session.request] does with a call (preparing the URL, merging headers,
    authentication, cookies, redirects, the network, the remote service) and
    what the JSON decoder does with a body are parameters: the statements
    speak of the calls the client makes to [Session.request] and of what it
    does with the answers, not of the bytes that travel. Of [pydantic], the
    model fixes how a model is built from keyword data; the scalar
    coercions, and the default that some releases give a field named like an
    attribute of [BaseModel], are parameters.

    The embedding follows the same layout:
    - [Py]        the Python values that reach the SDK and the exceptions it
                  can raise;
    - [Pydantic]  construction of a [BaseModel] from keyword data (pydantic 2,
                  default configuration, as pinned by [setup.py]);
    - [Types]     the models of [types.py];
    - [Requests]  the part of [requests.Session] and [requests.Response] that
                  [client.py] calls;
    - [Client]    [client.py] itself, one definition per method;
    - [Mock]      a scripted session with fixtures, for the scenarios;
    - [Interface] the public methods as a datatype, and the definitions
                  the statements need. *)

From Stdlib Require Import ZArith Ascii Floats.SpecFloat.
From stdpp Require Import gmap strings list.

Set Warnings "-register-all".
#[local] Open Scope Z_scope.

(** ** Python values and exceptions *)

Module Py.

(** [datetime.datetime]: the calendar fields and, for an aware value, the
    UTC offset in seconds. *)
Record datetime := {
  year : Z; month : Z; day : Z;
  hour : Z; minute : Z; second : Z; microsecond : Z;
  utcoffset : option Z
}.

(** What [json.loads] can produce (None, bool, int, float, str, list,
    dict with str keys), plus [datetime] instances, which are the declared
    type of the timestamp fields, and bound methods, which a field can have
    for its default.  A Python float is an IEEE 754 binary64. *)
Inductive pyval :=
| PNone
| PBool (b : bool)
| PInt (n : Z)
| PFloat (x : spec_float)
| PStr (s : string)
| PList (l : list pyval)
| PDict (d : gmap string pyval)
| PDatetime (t : datetime)
| PMethod (qualname : string).

(** Line errors of a pydantic [ValidationError]: field name and error type
    (["missing"], ["string_type"], ...). *)
Definition line_error : Type := string * string.

(** The body and status of a [requests.Response]. *)
Record Response := { status_code : Z; text : string }.

(** The exceptions that can leave the SDK. [HTTPError] keeps the response it
    was raised for, as [requests.exceptions.HTTPError.response] does.
    [Raised] is an exception that comes out of library code the model
    leaves abstract, named by its class, whatever the class: out of
    [Session.request] (ConnectionError, Timeout, MissingSchema,
    InvalidHeader, the ValueError for a timeout of 0, ...) or out of the
    JSON decoder (ValueError, RecursionError). *)
Inductive exn :=
| HTTPError (response : Response)
| Raised (cls : string)
| JSONDecodeError
| ValidationError (errors : list line_error)
| TypeError.

Definition result (A : Type) : Type := exn + A.

(** Truth value of an [Optional[str]], as tested by [if api_key:]. *)
Definition truthy (o : option string) : bool :=
  match o with
  | None => false
  | Some s => negb (String.eqb s "")
  end.

Definition in_chars (a : Ascii.ascii) (chars : string) : bool :=
  existsb (Ascii.eqb a) (String.list_ascii_of_string chars).

(** [str.rstrip(chars)]: drops the longest suffix made of characters of
    [chars]. *)
Fixpoint rstrip (chars s : string) : string :=
  match s with
  | EmptyString => EmptyString
  | String a s' =>
      match rstrip chars s' with
      | EmptyString => if in_chars a chars then EmptyString else String a EmptyString
      | r => String a r
      end
  end.

(** Iteration, as in [for item in response]: a list yields its elements, a
    dict its keys, a str its characters; the other values are not
    iterable.  The keys of a dict come in the order of the map, not in
    insertion order: the client only ever unpacks them, which fails the same
    way for every key. *)
Definition iter (v : pyval) : result (list pyval) :=
  match v with
  | PList l => inr l
  | PDict d => inr (PStr <$> (map_to_list d).*1)
  | PStr s => inr ((λ a, PStr (String a EmptyString)) <$> String.list_ascii_of_string s)
  | _ => inl TypeError
  end.

(** A call [f( ** item)]: [item] must be a mapping. *)
Definition call_kwargs {A} (f : gmap string pyval → result A) (item : pyval) : result A :=
  match item with
  | PDict d => f d
  | _ => inl TypeError
  end.

(** A list comprehension [[f(x) for x in l]]: the first exception ends it. *)
Fixpoint comprehension {A B} (f : A → result B) (l : list A) : result (list B) :=
  match l with
  | [] => inr []
  | x :: l' =>
      match f x with
      | inl e => inl e
      | inr y =>
          match comprehension f l' with
          | inl e => inl e
          | inr ys => inr (y :: ys)
          end
      end
  end.

End Py.
Export Py.

(** ** pydantic: building a model from keyword data *)

Module Pydantic.

(** What is left abstract of pydantic: every result below holds for any
    choice of it.
    - The scalar coercions of pydantic-core's lax mode that read numbers and
      timestamps out of strings and floats.
    - [schema_default], the default of a field named [schema]. The name is
      that of a method of [BaseModel]. Releases 2.5 to 2.11 take the
      inherited attribute for the default of such a field, which is then not
      required and holds the bound method [BaseModel.schema] when the data
      has no such key ([Some]); a release that does not do so leaves the
      field required, as declared ([None]). *)
Class Coercions := {
  str_as_int : string → string + Z;
  float_as_int : spec_float → string + Z;
  str_as_datetime : string → string + datetime;
  int_as_datetime : Z → string + datetime;
  float_as_datetime : spec_float → string + datetime;
  schema_default : option pyval
}.

(** A field validator returns the validated value or an error type. *)
Definition validator (A : Type) : Type := pyval → string + A.

(** Outcome of validating a whole model: pydantic reports every failing
    field, in declaration order. *)
Definition validated (A : Type) : Type := list line_error + A.

Definition ap {A B} (f : validated (A → B)) (x : validated A) : validated B :=
  match f, x with
  | inr g, inr a => inr (g a)
  | inr _, inl e => inl e
  | inl e, inr _ => inl e
  | inl e1, inl e2 => inl (e1 ++ e2)
  end.

(** A validation outcome that reports the given line error. *)
Definition fails_with {A} (x : validated A) (le : line_error) : Prop :=
  ∃ errs, x = inl errs ∧ le ∈ errs.

(** A validation outcome whose line errors, if any, are at least one and
    name fields of [names], in the order of [names], each at most once. *)
Definition reports {A} (names : list string) (x : validated A) : Prop :=
  match x with
  | inl errs => errs ≠ [] ∧ errs.*1 `sublist_of` names
  | inr _ => True
  end.

(** A field declared without a default. *)
Definition required {A} (name : string) (v : validator A)
    (data : gmap string pyval) : validated A :=
  match data !! name with
  | None => inl [(name, "missing")]
  | Some x =>
      match v x with
      | inl ty => inl [(name, ty)]
      | inr a => inr a
      end
  end.

(** A field declared [= dflt]: the default is used, unvalidated, when the
    key is absent. *)
Definition optional {A} (name : string) (v : validator A) (dflt : A)
    (data : gmap string pyval) : validated A :=
  match data !! name with
  | None => inr dflt
  | Some x =>
      match v x with
      | inl ty => inl [(name, ty)]
      | inr a => inr a
      end
  end.

(** A field whose default, if it has one, is decided by pydantic. *)
Definition declared {A} (name : string) (v : validator A) (dflt : option A)
    (data : gmap string pyval) : validated A :=
  match dflt with
  | Some d => optional name v d data
  | None => required name v data
  end.

(** [BaseModel.__init__( ** data)]: raises one [ValidationError] carrying all
    line errors.  Keys that are not fields are ignored. *)
Definition init {A} (fields : gmap string pyval → validated A)
    (data : gmap string pyval) : result A :=
  match fields data with
  | inl errs => inl (ValidationError errs)
  | inr a => inr a
  end.

Section Validators.
Context `{!Coercions}.

(** [str] *)
Definition v_str : validator string := λ v,
  match v with
  | PStr s => inr s
  | _ => inl "string_type"
  end.

(** [Literal[...]] of strings *)
Definition v_literal (allowed : list string) : validator string := λ v,
  match v with
  | PStr s => if bool_decide (s ∈ allowed) then inr s else inl "literal_error"
  | _ => inl "literal_error"
  end.

(** [Dict[str, Any]]: the dict itself *)
Definition v_dict : validator pyval := λ v,
  match v with
  | PDict d => inr (PDict d)
  | _ => inl "dict_type"
  end.

(** [int] *)
Definition v_int : validator Z := λ v,
  match v with
  | PInt n => inr n
  | PBool b => inr (if b then 1 else 0)
  | PStr s => str_as_int s
  | PFloat x => float_as_int x
  | _ => inl "int_type"
  end.

(** [datetime] *)
Definition v_datetime : validator datetime := λ v,
  match v with
  | PDatetime t => inr t
  | PStr s => str_as_datetime s
  | PInt n => int_as_datetime n
  | PFloat x => float_as_datetime x
  | _ => inl "datetime_type"
  end.

(** [Any] *)
Definition v_any : validator pyval := λ v, inr v.

(** [Optional[T]] *)
Definition v_optional {A} (v : validator A) : validator (option A) := λ x,
  match x with
  | PNone => inr None
  | _ =>
      match v x with
      | inl ty => inl ty
      | inr a => inr (Some a)
      end
  end.

End Validators.

End Pydantic.

Notation "f <*> x" := (Pydantic.ap f x) (at level 61, left associativity).

(** ** types.py *)

Module Types.
Import Pydantic.

Module EventType.
(** [schema] is a dict whenever the data had one. *)
Record t := {
  id : string;
  name : string;
  version : string;
  schema : pyval;
  created_at : datetime
}.
End EventType.

Module Subscription.
Definition statuses : list string := ["active"; "paused"; "failed"]%string.

Record t := {
  id : string;
  event_type_id : string;
  endpoint : string;
  status : string;
  created_at : datetime
}.
End Subscription.

(** The annotations a [Subscription] field can have. *)
Inductive annotation :=
| Str
| Literal (values : list string)
| Datetime.

(** The class body of [Subscription], as data. *)
Definition Subscription_annotations : list (string * annotation) :=
  [ ("id", Str); ("event_type_id", Str); ("endpoint", Str);
    ("status", Literal Subscription.statuses); ("created_at", Datetime) ]%string.

(** Whether a value has the declared shape: a string for [str], one of the
    listed strings for [Literal], and for [datetime] a datetime or one of
    the forms a timestamp has in JSON, a string or a number. *)
Definition has_shape (a : annotation) (v : pyval) : bool :=
  match a, v with
  | Str, PStr _ => true
  | Literal values, PStr s => bool_decide (s ∈ values)
  | Datetime, (PDatetime _ | PStr _ | PInt _ | PFloat _) => true
  | _, _ => false
  end.

Module DispatchJob.
Definition statuses : list string :=
  ["pending"; "processing"; "completed"; "failed"]%string.

Record t := {
  id : string;
  event_id : string;
  subscription_id : string;
  status : string;
  attempts : Z;
  created_at : datetime;
  completed_at : option datetime
}.
End DispatchJob.

Module ApiResponse.
Record t := {
  data : option pyval;
  error : option string
}.
End ApiResponse.

Section Models.
Context `{!Coercions}.

Definition EventType_fields (data : gmap string pyval) : validated EventType.t :=
  inr EventType.Build_t
    <*> required "id" v_str data
    <*> required "name" v_str data
    <*> required "version" v_str data
    <*> declared "schema" v_dict schema_default data
    <*> required "created_at" v_datetime data.

Definition Subscription_fields (data : gmap string pyval) : validated Subscription.t :=
  inr Subscription.Build_t
    <*> required "id" v_str data
    <*> required "event_type_id" v_str data
    <*> required "endpoint" v_str data
    <*> required "status" (v_literal Subscription.statuses) data
    <*> required "created_at" v_datetime data.

Definition DispatchJob_fields (data : gmap string pyval) : validated DispatchJob.t :=
  inr DispatchJob.Build_t
    <*> required "id" v_str data
    <*> required "event_id" v_str data
    <*> required "subscription_id" v_str data
    <*> required "status" (v_literal DispatchJob.statuses) data
    <*> required "attempts" v_int data
    <*> required "created_at" v_datetime data
    <*> optional "completed_at" (v_optional v_datetime) None data.

(** The constructors [EventType( ** data)], [Subscription( ** data)],
    [DispatchJob( ** data)]. *)
Definition EventType (data : gmap string pyval) : result EventType.t :=
  init EventType_fields data.

Definition Subscription (data : gmap string pyval) : result Subscription.t :=
  init Subscription_fields data.

Definition DispatchJob (data : gmap string pyval) : result DispatchJob.t :=
  init DispatchJob_fields data.

Definition ApiResponse_fields (data : gmap string pyval) : validated ApiResponse.t :=
  inr ApiResponse.Build_t
    <*> optional "data" (v_optional v_any) None data
    <*> optional "error" (v_optional v_str) None data.

(** [ApiResponse( ** data)] *)
Definition ApiResponse (data : gmap string pyval) : result ApiResponse.t :=
  init ApiResponse_fields data.

End Models.

(** The field names of each model, in the order of the class body. *)
Definition EventType_names : list string :=
  ["id"; "name"; "version"; "schema"; "created_at"]%string.

Definition Subscription_names : list string :=
  ["id"; "event_type_id"; "endpoint"; "status"; "created_at"]%string.

Definition DispatchJob_names : list string :=
  ["id"; "event_id"; "subscription_id"; "status"; "attempts"; "created_at";
   "completed_at"]%string.

Definition ApiResponse_names : list string := ["data"; "error"]%string.

End Types.

(** ** requests: sessions, requests, responses *)

Module Requests.

(** [requests.structures.CaseInsensitiveDict], the type of
    [session.headers]: an entry is stored under the lower-case form of its
    key, together with the key as it was given. Strings are byte strings
    here and lower-casing acts on the ASCII letters. *)
Module CaseInsensitiveDict.
Definition lower_ascii (a : ascii) : ascii :=
  let n := N_of_ascii a in
  if ((65 <=? n) && (n <=? 90))%N then ascii_of_N (n + 32) else a.

Fixpoint lower (s : string) : string :=
  match s with
  | EmptyString => EmptyString
  | String a s' => String (lower_ascii a) (lower s')
  end.

Abbreviation t := (gmap string (string * string)).

(** [d[key] = value] *)
Definition setitem (key value : string) (d : t) : t :=
  <[ lower key := (key, value) ]> d.

(** [d.get(key)] *)
Definition get (key : string) (d : t) : option string :=
  snd <$> d !! lower key.

(** [d.update(items)], the items in the order of the dict given *)
Definition update (items : list (string * string)) (d : t) : t :=
  foldl (λ d kv, setitem kv.1 kv.2 d) d items.

Definition of_list (items : list (string * string)) : t := update items ∅.
End CaseInsensitiveDict.

Module Call.
(** A call [session.request(method, url, timeout=..., json=...)] as the
    client makes it: the headers the session has at that time and the
    arguments. The client passes no headers of its own. What [requests]
    sends for the call is not part of this record. *)
Record t := {
  session_headers : CaseInsensitiveDict.t;
  method : string;
  url : string;
  timeout : Z;
  json : option pyval
}.
End Call.

(** How a call of [Session.request] ends: it returns a response, whatever
    its status, or raises an exception of the given class. *)
Inductive outcome :=
| Reply (r : Response)
| Raise (cls : string).

(** Everything behind [Session.request]: what [requests] does with a call
    (it prepares and normalises the URL, merges the session's headers with
    its own, may take credentials from the URL or from [.netrc], keeps
    cookies, follows redirects, checks the timeout), the network and the
    remote service. [send] is how a call ends, given the state of all that;
    it may raise before anything is sent and it may send more than one
    request. *)
Class Backend := {
  state : Type;
  send : Call.t → state → outcome * state
}.

(** What the JSON decoder behind [Response.json] does with a body: it
    returns a value, or raises [JSONDecodeError] for a body that is not
    JSON, or raises another exception (a ValueError for an integer of more
    than 4300 digits, a RecursionError for a deeply nested body). *)
Inductive decoding :=
| Decoded (v : pyval)
| NotJSON
| DecoderError (cls : string).

(** The two library values the client depends on: the headers a fresh
    [Session] starts with and the JSON decoder. *)
Class Library := {
  default_headers : CaseInsensitiveDict.t;
  loads : string → decoding
}.

Section World.
Context `{!Backend}.

(** The state behind [Session.request] and the calls of [Session.request]
    made so far, oldest first. *)
Record World := {
  backend : state;
  session_calls : list Call.t
}.

(** Computations that call [Session.request] and may raise. *)
Definition M (A : Type) : Type := World → result A * World.

Definition ret {A} (a : A) : M A := λ w, (inr a, w).

Definition bind {A B} (m : M A) (k : A → M B) : M B := λ w,
  match m w with
  | (inl e, w') => (inl e, w')
  | (inr a, w') => k a w'
  end.

(** A computation that makes no call. *)
Definition lift {A} (r : result A) : M A := λ w, (r, w).

End World.

Module Session.
Record t := { headers : CaseInsensitiveDict.t }.

(** [requests.Session()] *)
Definition new `{!Library} : t := {| headers := default_headers |}.

(** [session.headers.update(d)] *)
Definition headers_update (d : list (string * string)) (s : t) : t :=
  {| headers := CaseInsensitiveDict.update d (headers s) |}.

(** [session.request(method, url, timeout=..., json=...)]. The call is
    recorded and ends the way [send] says. *)
Definition request `{!Backend} (s : t) (method url : string) (timeout : Z)
    (json : option pyval) : M Response := λ w,
  let call := {| Call.session_headers := headers s;
                 Call.method := method; Call.url := url;
                 Call.timeout := timeout; Call.json := json |} in
  let '(o, b) := send call (backend w) in
  (match o with
   | Reply r => inr r
   | Raise cls => inl (Raised cls)
   end,
   {| backend := b; session_calls := session_calls w ++ [call] |}).
End Session.

(** [Response.raise_for_status()]: client errors (4xx) and server errors
    (5xx) raise [HTTPError]; every other status returns. *)
Definition raise_for_status (r : Response) : result () :=
  if (400 <=? status_code r) && (status_code r <? 500) then inl (HTTPError r)
  else if (500 <=? status_code r) && (status_code r <? 600) then inl (HTTPError r)
  else inr ().

(** [Response.json()] *)
Definition Response_json `{!Library} (r : Response) : result pyval :=
  match loads (text r) with
  | Decoded v => inr v
  | NotJSON => inl JSONDecodeError
  | DecoderError cls => inl (Raised cls)
  end.

End Requests.

Notation "x <- m ;; k" := (Requests.bind m (λ x, k))
  (at level 100, m at next level, right associativity,
   format "'[v' x  <-  m  ;;  '/' k ']'").

(** ** client.py *)

Module Client.
Import Pydantic Types Requests.

Record FlowCatalystClient := {
  base_url : string;
  api_key : option string;
  timeout : Z;
  session : Session.t
}.

Section Methods.
Context `{!Coercions, !Library, !Backend}.

(** [FlowCatalystClient(base_url, api_key=None, timeout=30)]; an omitted
    [timeout] is [None] here. *)
Definition __init__ (base_url : string) (api_key : option string)
    (timeout : option Z) : FlowCatalystClient :=
  let session := Session.new in
  {| base_url := rstrip "/" base_url;
     api_key := api_key;
     timeout := default 30 timeout;
     session :=
       match api_key with
       | Some key =>
           if truthy api_key
           then Session.headers_update [("Authorization", "Bearer " +:+ key)] session
           else session
       | None => session
       end |}.

Definition _request (self : FlowCatalystClient) (method path : string)
    (json : option pyval) : M pyval :=
  let url := base_url self +:+ path in
  response <- Session.request (session self) method url (timeout self) json ;;
  _ <- lift (raise_for_status response) ;;
  lift (Response_json response).

(** [[T( ** item) for item in response]] *)
Definition each {A} (T : gmap string pyval → result A) (response : pyval)
    : result (list A) :=
  match iter response with
  | inl e => inl e
  | inr items => comprehension (call_kwargs T) items
  end.

Definition get_event_types (self : FlowCatalystClient) : M (list EventType.t) :=
  response <- _request self "GET" "/api/event-types" None ;;
  lift (each EventType response).

Definition get_event_type (self : FlowCatalystClient) (event_type_id : string)
    : M EventType.t :=
  response <- _request self "GET" ("/api/event-types/" +:+ event_type_id) None ;;
  lift (call_kwargs EventType response).

Definition create_event_type (self : FlowCatalystClient) (name version : string)
    (schema : gmap string pyval) : M EventType.t :=
  let payload : gmap string pyval :=
    {[ "name" := PStr name; "version" := PStr version; "schema" := PDict schema ]} in
  response <- _request self "POST" "/api/event-types" (Some (PDict payload)) ;;
  lift (call_kwargs EventType response).

Definition get_subscriptions (self : FlowCatalystClient) : M (list Subscription.t) :=
  response <- _request self "GET" "/api/subscriptions" None ;;
  lift (each Subscription response).

Definition get_subscription (self : FlowCatalystClient) (subscription_id : string)
    : M Subscription.t :=
  response <- _request self "GET" ("/api/subscriptions/" +:+ subscription_id) None ;;
  lift (call_kwargs Subscription response).

(** An omitted [status] is [None] here and takes the declared default. *)
Definition create_subscription (self : FlowCatalystClient)
    (event_type_id endpoint : string) (status : option string) : M Subscription.t :=
  let status := default "active"%string status in
  let payload : gmap string pyval :=
    {[ "event_type_id" := PStr event_type_id;
       "endpoint" := PStr endpoint;
       "status" := PStr status ]} in
  response <- _request self "POST" "/api/subscriptions" (Some (PDict payload)) ;;
  lift (call_kwargs Subscription response).

Definition get_dispatch_jobs (self : FlowCatalystClient) : M (list DispatchJob.t) :=
  response <- _request self "GET" "/api/dispatch-jobs" None ;;
  lift (each DispatchJob response).

Definition get_dispatch_job (self : FlowCatalystClient) (job_id : string)
    : M DispatchJob.t :=
  response <- _request self "GET" ("/api/dispatch-jobs/" +:+ job_id) None ;;
  lift (call_kwargs DispatchJob response).

End Methods.

End Client.

(** ** A scripted session and fixtures

    The scenarios at the end of the file run the client against a
    [Session.request] that answers from a script, the way a test with a
    mocked session would. *)

Module Mock.
Import Pydantic Types Requests Client.

Definition new_year : datetime :=
  {| year := 2024; month := 1; day := 1; hour := 0; minute := 0; second := 0;
     microsecond := 0; utcoffset := Some 0 |}.

(** Coercions that know one timestamp and no numeric strings, in a pydantic
    where [schema] is required. *)
Definition coercions : Coercions :=
  {| str_as_int := λ _, inl "int_parsing"%string;
     float_as_int := λ _, inl "int_from_float"%string;
     str_as_datetime := λ s,
       if String.eqb s "2024-01-01T00:00:00Z" then inr new_year
       else inl "datetime_from_date_parsing"%string;
     int_as_datetime := λ _, inl "datetime_parsing"%string;
     float_as_datetime := λ _, inl "datetime_parsing"%string;
     schema_default := None |}.

(** The same in a pydantic where [schema] defaults to the method it
    shadows. *)
Definition coercions_shadowing : Coercions :=
  {| str_as_int := @str_as_int coercions;
     float_as_int := @float_as_int coercions;
     str_as_datetime := @str_as_datetime coercions;
     int_as_datetime := @int_as_datetime coercions;
     float_as_datetime := @float_as_datetime coercions;
     schema_default := Some (PMethod "BaseModel.schema") |}.

Definition subscription_s1 : gmap string pyval :=
  {[ "id" := PStr "s1"; "event_type_id" := PStr "et1";
     "endpoint" := PStr "https://x/y"; "status" := PStr "active";
     "created_at" := PStr "2024-01-01T00:00:00Z" ]}.

Definition job (id status : string) : gmap string pyval :=
  {[ "id" := PStr id; "event_id" := PStr "e1"; "subscription_id" := PStr "s1";
     "status" := PStr status; "attempts" := PInt 0;
     "created_at" := PStr "2024-01-01T00:00:00Z" ]}.

(** A job that is still pending and yet carries a completion timestamp. *)
Definition pending_with_completion : gmap string pyval :=
  <[ "completed_at" := PStr "2024-01-01T00:00:00Z" ]> (job "j9" "pending").

Definition jobs_j1_j2_j3 : list pyval :=
  [PDict (job "j1" "pending"); PDict (job "j2" "completed"); PDict (job "j3" "failed")].

(** Response bodies, by name, and the values they decode to. *)
Definition fixtures : gmap string pyval :=
  {[ "[]" := PList [];
     "[1, {}]" := PList [PInt 1; PDict ∅];
     "subscription s1" := PDict subscription_s1;
     "jobs j1 j2 j3" := PList jobs_j1_j2_j3;
     "job j9" := PDict pending_with_completion ]}.

Definition library : Library :=
  {| default_headers :=
       CaseInsensitiveDict.of_list
         [ ("User-Agent", "python-requests/2.31.0"); ("Accept-Encoding", "gzip, deflate");
           ("Accept", "*/*"); ("Connection", "keep-alive") ]%string;
     loads := λ body,
       match fixtures !! body with
       | Some v => Decoded v
       | None => NotJSON
       end |}.

(** [Session.request] ends each call with the next outcome of a script, and
    with a refused connection once the script is over. *)
Definition scripted : Backend :=
  {| state := list outcome;
     send := λ _ script,
       match script with
       | o :: rest => (o, rest)
       | [] => (Raise "ConnectionError", [])
       end |}.

Definition world (script : list outcome) : @World scripted :=
  @Build_World scripted script [].

(** Responses the scripts are made of. *)
Definition unavailable : Response := {| status_code := 503; text := "unavailable" |}.
Definition not_found : Response := {| status_code := 404; text := "no such subscription" |}.
Definition not_modified : Response := {| status_code := 304; text := "[]" |}.
Definition created : Response := {| status_code := 201; text := "subscription s1" |}.
Definition three_jobs : Response := {| status_code := 200; text := "jobs j1 j2 j3" |}.
Definition mixed_array : Response := {| status_code := 200; text := "[1, {}]" |}.
Definition odd_job : Response := {| status_code := 200; text := "job j9" |}.

Definition client : FlowCatalystClient :=
  @__init__ library "http://h/" (Some "k"%string) None.

(** A subscription whose status is outside the enumerated set. *)
Definition cancelled : gmap string pyval :=
  <[ "status"%string := PStr "cancelled" ]> subscription_s1.

(** An event type whose fields hold values of the declared types. *)
Definition order_placed : gmap string pyval :=
  {[ "id" := PStr "et1"; "name" := PStr "order.placed"; "version" := PStr "1.0";
     "schema" := PDict {[ "type" := PStr "object" ]};
     "created_at" := PDatetime new_year ]}.

(** The same event type as it comes over the wire. *)
Definition order_placed_json : gmap string pyval :=
  <[ "created_at"%string := PStr "2024-01-01T00:00:00Z" ]> order_placed.

(** The event type without its schema. *)
Definition order_placed_no_schema : gmap string pyval :=
  delete "schema"%string order_placed_json.

(** More response bodies: an empty object, an event type, a subscription
    with a status outside the set and an array in an envelope. *)
Definition more_fixtures : gmap string pyval :=
  <[ "{}"%string := PDict ∅ ]>
    (<[ "event type et1"%string := PDict order_placed_json ]>
       (<[ "subscription cancelled"%string := PDict cancelled ]>
          (<[ "envelope"%string :=
                PDict {[ "data"%string := PList []; "error"%string := PNone ]} ]>
             fixtures))).

Definition rich_library : Library :=
  {| default_headers := @default_headers library;
     loads := λ body,
       if String.eqb body "an integer of 4301 digits" then DecoderError "ValueError"
       else match more_fixtures !! body with
            | Some v => Decoded v
            | None => NotJSON
            end |}.

Definition empty_object : Response := {| status_code := 200; text := "{}" |}.
Definition enveloped : Response := {| status_code := 200; text := "envelope" |}.
Definition not_json : Response := {| status_code := 200; text := "<html>" |}.
Definition huge_integer : Response :=
  {| status_code := 200; text := "an integer of 4301 digits" |}.
Definition cancelled_created : Response :=
  {| status_code := 201; text := "subscription cancelled" |}.
Definition empty_array : Response := {| status_code := 200; text := "[]" |}.

End Mock.

(** ** The public interface as data

    [client.py] has no such type: it is here so that statements can range
    over every method and over every sequence of calls a caller makes. *)

Module Interface.
Import Pydantic Types Requests Client.

Inductive call :=
| GetEventTypes
| GetEventType (event_type_id : string)
| CreateEventType (name version : string) (schema : gmap string pyval)
| GetSubscriptions
| GetSubscription (subscription_id : string)
| CreateSubscription (event_type_id endpoint : string) (status : option string)
| GetDispatchJobs
| GetDispatchJob (job_id : string).

Inductive answer :=
| EventTypes (l : list EventType.t)
| AnEventType (e : EventType.t)
| Subscriptions (l : list Subscription.t)
| ASubscription (s : Subscription.t)
| DispatchJobs (l : list DispatchJob.t)
| ADispatchJob (j : DispatchJob.t).

Section Calls.
Context `{!Coercions, !Library, !Backend}.

(** The call of [Session.request] that [_request] makes for its
    arguments. *)
Definition call_of (self : FlowCatalystClient) (method path : string)
    (json : option pyval) : Call.t :=
  {| Call.method := method;
     Call.url := base_url self +:+ path;
     Call.session_headers := Session.headers (session self);
     Call.timeout := timeout self;
     Call.json := json |}.

Definition invoke (self : FlowCatalystClient) (c : call) : M answer :=
  match c with
  | GetEventTypes => l <- get_event_types self ;; ret (EventTypes l)
  | GetEventType i => e <- get_event_type self i ;; ret (AnEventType e)
  | CreateEventType n v s => e <- create_event_type self n v s ;; ret (AnEventType e)
  | GetSubscriptions => l <- get_subscriptions self ;; ret (Subscriptions l)
  | GetSubscription i => s <- get_subscription self i ;; ret (ASubscription s)
  | CreateSubscription e p s =>
      s <- create_subscription self e p s ;; ret (ASubscription s)
  | GetDispatchJobs => l <- get_dispatch_jobs self ;; ret (DispatchJobs l)
  | GetDispatchJob i => j <- get_dispatch_job self i ;; ret (ADispatchJob j)
  end.

(** The call of [Session.request] each public call makes. *)
Definition call_for (self : FlowCatalystClient) (c : call) : Call.t :=
  match c with
  | GetEventTypes => call_of self "GET" "/api/event-types" None
  | GetEventType i => call_of self "GET" ("/api/event-types/" +:+ i) None
  | CreateEventType n v s =>
      call_of self "POST" "/api/event-types"
        (Some (PDict {[ "name" := PStr n; "version" := PStr v; "schema" := PDict s ]}))
  | GetSubscriptions => call_of self "GET" "/api/subscriptions" None
  | GetSubscription i => call_of self "GET" ("/api/subscriptions/" +:+ i) None
  | CreateSubscription e p s =>
      call_of self "POST" "/api/subscriptions"
        (Some (PDict {[ "event_type_id" := PStr e; "endpoint" := PStr p;
                        "status" := PStr (default "active"%string s) ]}))
  | GetDispatchJobs => call_of self "GET" "/api/dispatch-jobs" None
  | GetDispatchJob i => call_of self "GET" ("/api/dispatch-jobs/" +:+ i) None
  end.

(** What each call makes of a decoded response body. *)
Definition wrap {A} (f : A → answer) (r : result A) : result answer :=
  match r with
  | inl e => inl e
  | inr a => inr (f a)
  end.

Definition build (c : call) (body : pyval) : result answer :=
  match c with
  | GetEventTypes => wrap EventTypes (each EventType body)
  | GetEventType _ | CreateEventType _ _ _ => wrap AnEventType (call_kwargs EventType body)
  | GetSubscriptions => wrap Subscriptions (each Subscription body)
  | GetSubscription _ | CreateSubscription _ _ _ =>
      wrap ASubscription (call_kwargs Subscription body)
  | GetDispatchJobs => wrap DispatchJobs (each DispatchJob body)
  | GetDispatchJob _ => wrap ADispatchJob (call_kwargs DispatchJob body)
  end.

(** The state behind [Session.request] after a sequence of public calls:
    each one's call of [Session.request] is put to it, in turn. *)
Definition served (self : FlowCatalystClient) (calls : list call) (b : state) : state :=
  foldl (λ b c, (send (call_for self c) b).2) b calls.

(** A caller making the calls one after the other, going on after a
    failed one. *)
Fixpoint run (self : FlowCatalystClient) (calls : list call) (w : World) : World :=
  match calls with
  | [] => w
  | c :: calls' => run self calls' (invoke self c w).2
  end.

End Calls.


Fixpoint slashes (n : nat) : string :=
  match n with
  | O => EmptyString
  | S n' => String "/"%char (slashes n')
  end.

(** An answer whose subscriptions and dispatch jobs all have a status of
    the enumerated set of their model. *)
Definition declared_statuses (a : answer) : Prop :=
  match a with
  | Subscriptions l => Forall (λ s, Subscription.status s ∈ Subscription.statuses) l
  | ASubscription s => Subscription.status s ∈ Subscription.statuses
  | DispatchJobs l => Forall (λ j, DispatchJob.status j ∈ DispatchJob.statuses) l
  | ADispatchJob j => DispatchJob.status j ∈ DispatchJob.statuses
  | EventTypes _ | AnEventType _ => True
  end.

(** The calls that return a sequence, and those that return one record. *)
Definition list_call (c : call) : bool :=
  match c with
  | GetEventTypes | GetSubscriptions | GetDispatchJobs => true
  | _ => false
  end.

(** A dict without keys or a string without characters: iterating it yields
    nothing. *)
Definition empty_container (v : pyval) : bool :=
  match v with
  | PDict d => bool_decide (size d = 0%nat)
  | PStr s => String.eqb s ""
  | _ => false
  end.

Definition empty_answer (c : call) : answer :=
  match c with
  | GetSubscriptions => Subscriptions []
  | GetDispatchJobs => DispatchJobs []
  | _ => EventTypes []
  end.

(** How a list operation ends when some element of the array cannot be
    built: with the exception of the first such element, and no sequence. *)
Definition fails_at_first_bad {A} (T : gmap string pyval → result A)
    (items : list pyval) (outcome : result (list A)) : Prop :=
  ∃ pre bad post e,
    items = pre ++ bad :: post ∧
    Forall (λ item, ∃ record, call_kwargs T item = inr record) pre ∧
    call_kwargs T bad = inl e ∧
    outcome = inl e ∧
    match bad with
    | PDict _ => ∃ errs, e = ValidationError errs
    | _ => e = TypeError
    end.

End Interface.

(** [simpl] leaves [+:+] alone; this unfolds it as well. *)
Ltac string_simpl :=
  simpl; cbv [String.append]; fold String.append.

(** * Properties *)

Import Pydantic Types Requests Client Interface.

(** ** The request executor *)

Section Executor.
Context `{!Library, !Backend}.

Lemma raise_for_status_range r :
  raise_for_status r =
    if bool_decide (400 ≤ status_code r < 600) then inl (HTTPError r) else inr ().
Proof.
  unfold raise_for_status.
  case_bool_decide as Hr;
    repeat (match goal with
            | |- context [?a <=? ?b] => destruct (Z.leb_spec a b)
            | |- context [?a <? ?b] => destruct (Z.ltb_spec a b)
            end; simpl); try reflexivity; lia.
Qed.

(** [_request] is one call of [Session.request] followed by the status
    check and the decoding of the body. *)
Lemma _request_exchange self method path json w :
  _request self method path json w =
    (match (send (call_of self method path json) (backend w)).1 with
     | Reply r =>
         if bool_decide (400 ≤ status_code r < 600) then inl (HTTPError r)
         else Response_json r
     | Raise cls => inl (Raised cls)
     end,
     {| backend := (send (call_of self method path json) (backend w)).2;
        session_calls := session_calls w ++ [call_of self method path json] |}).
Proof.
  unfold _request, bind, Session.request, call_of, lift.
  destruct (send _ (backend w)) as [[r|cls] b]; simpl; [|reflexivity].
  rewrite raise_for_status_range. case_bool_decide; reflexivity.
Qed.

Lemma bind_raise {A B} (m : M A) (k : A → M B) w e w' :
  m w = (inl e, w') → (x <- m ;; k x) w = (inl e, w').
Proof. unfold bind. intros ->. reflexivity. Qed.

Lemma bind_ret_world {A B} (m : M A) (g : A → B) w :
  ((x <- m ;; ret (g x)) w).2 = (m w).2.
Proof. unfold bind, ret. destruct (m w) as [[e|a] w']; reflexivity. Qed.

(** C1, as amended. When the executor receives a response with a status
    from 400 to 599, the call fails with the [HTTPError] that carries this
    very response (hence its status code and body); [Session.request] was
    called exactly once, and whatever a facade method would do with a
    result, its caller gets the same error. A response with any other status, 2xx or
    not, raises no [HTTPError]: the outcome is that of decoding its body. *)
Theorem _request_HTTPError_4xx_5xx self method path json w r b :
  send (call_of self method path json) (backend w) = (Reply r, b) →
  let w' := {| backend := b; session_calls := session_calls w ++ [call_of self method path json] |} in
  _request self method path json w =
    (if bool_decide (400 ≤ status_code r < 600) then inl (HTTPError r)
     else Response_json r, w')
  ∧ (400 ≤ status_code r < 600 →
     ∀ B (k : pyval → M B),
       (x <- _request self method path json ;; k x) w = (inl (HTTPError r), w')).
Proof.
  intros Hsend w'. rewrite _request_exchange, Hsend. simpl. split; [reflexivity|].
  intros Hr B k. apply bind_raise.
  rewrite _request_exchange, Hsend. simpl. rewrite bool_decide_eq_true_2 by exact Hr.
  reflexivity.
Qed.

End Executor.

(** ** The facade *)

Section Facade.
Context `{!Coercions, !Library, !Backend}.

(** Every method that decodes one response has this shape. *)
Lemma facade_exchange {A} self method path json (f : pyval → result A) w :
  (response <- _request self method path json ;; lift (f response)) w =
    (match (send (call_of self method path json) (backend w)).1 with
     | Reply r =>
         if bool_decide (400 ≤ status_code r < 600) then inl (HTTPError r)
         else match Response_json r with
              | inl e => inl e
              | inr body => f body
              end
     | Raise cls => inl (Raised cls)
     end,
     {| backend := (send (call_of self method path json) (backend w)).2;
        session_calls := session_calls w ++ [call_of self method path json] |}).
Proof.
  unfold bind at 1. rewrite _request_exchange.
  destruct (send _ (backend w)) as [[r|cls] b]; simpl; [|reflexivity].
  case_bool_decide; [reflexivity|].
  destruct (Response_json r); reflexivity.
Qed.

(** Each call of the interface is one call of [Session.request], made
    before anything is decoded. *)
Lemma invoke_calls self c w :
  session_calls (invoke self c w).2 = session_calls w ++ [call_for self c].
Proof.
  destruct c; simpl; rewrite bind_ret_world;
    unfold get_event_types, get_event_type, create_event_type, get_subscriptions,
      get_subscription, create_subscription, get_dispatch_jobs, get_dispatch_job;
    rewrite facade_exchange; reflexivity.
Qed.

Lemma run_calls self calls w :
  session_calls (run self calls w) = session_calls w ++ (call_for self <$> calls).
Proof.
  revert w. induction calls as [|c calls IH]; intros w; simpl.
  - by rewrite app_nil_r.
  - rewrite IH, invoke_calls, <- app_assoc. reflexivity.
Qed.

(** C6. When the backend answers [GET /api/subscriptions/{id}] with status
    404, [get_subscription(id)] fails with the [HTTPError] carrying that
    response. Nothing is looked up locally first: whatever the identifier
    and the state of the world, the method makes this one call of
    [Session.request]. *)
Theorem get_subscription_404 self subscription_id w r b :
  let req := call_of self "GET" ("/api/subscriptions/" +:+ subscription_id) None in
  send req (backend w) = (Reply r, b) →
  status_code r = 404 →
  get_subscription self subscription_id w =
    (inl (HTTPError r), {| backend := b; session_calls := session_calls w ++ [req] |})
  ∧ ∀ w0, session_calls (get_subscription self subscription_id w0).2 = session_calls w0 ++ [req].
Proof.
  intros req Hsend Hr. unfold get_subscription. split.
  - rewrite facade_exchange. fold req. rewrite Hsend. simpl.
    rewrite bool_decide_eq_true_2 by lia. reflexivity.
  - intros w0. rewrite facade_exchange. reflexivity.
Qed.




End Facade.

(** ** List operations fail as a whole *)

Section ListOperations.
Context `{!Coercions, !Library, !Backend}.

(** The comprehension stops at the first element whose construction
    raises, and raises that element's exception. *)
Lemma comprehension_first_failure {A B} (f : A → result B) l :
  Exists (λ x, ∃ e, f x = inl e) l →
  ∃ pre bad post e,
    l = pre ++ bad :: post ∧
    Forall (λ x, ∃ y, f x = inr y) pre ∧
    f bad = inl e ∧
    comprehension f l = inl e.
Proof.
  induction l as [|x l IH]; intros Hex; [by apply Exists_nil in Hex|].
  simpl. destruct (f x) as [e|y] eqn:Hx.
  - exists [], x, l, e. repeat split; [constructor | exact Hx].
  - apply Exists_cons in Hex as [[e He]|Hex]; [congruence|].
    destruct (IH Hex) as (pre & bad & post & e & -> & Hpre & Hbad & ->).
    exists (x :: pre), bad, post, e. repeat split; [|exact Hbad].
    constructor; eauto.
Qed.

(** Building a model from a value raises [TypeError] when the value is not
    a mapping and [ValidationError] otherwise. *)
Lemma call_kwargs_init_error {A} (fields : gmap string pyval → validated A) v e :
  call_kwargs (init fields) v = inl e →
  match v with
  | PDict _ => ∃ errs, e = ValidationError errs
  | _ => e = TypeError
  end.
Proof.
  destruct v; simpl; try (intros [= <-]; reflexivity).
  unfold init. destruct (fields d) as [errs|a]; [|discriminate].
  intros [= <-]. eauto.
Qed.

Lemma each_fails_at_first_bad {A} (fields : gmap string pyval → validated A) items :
  Exists (λ item, ∃ e, call_kwargs (init fields) item = inl e) items →
  fails_at_first_bad (init fields) items (each (init fields) (PList items)).
Proof.
  intros Hex. unfold each. simpl.
  destruct (comprehension_first_failure _ _ Hex) as (pre & bad & post & e & -> & Hpre & Hbad & ->).
  exists pre, bad, post, e. repeat split; try done.
  by apply (call_kwargs_init_error fields).
Qed.

(** C10, as amended. For each of the three list operations, when the
    server's array has an element from which no record can be built, the
    whole call fails and returns no sequence, not even of the elements
    before it. The exception is the one of the first such element: a
    [ValidationError] when that element is a JSON object, a [TypeError]
    when it is not. *)
Theorem list_operations_all_or_nothing self w r b items :
  200 ≤ status_code r < 300 →
  loads (text r) = Decoded (PList items) →
  (send (call_of self "GET" "/api/event-types" None) (backend w) = (Reply r, b) →
   Exists (λ item, ∃ e, call_kwargs EventType item = inl e) items →
   fails_at_first_bad EventType items (get_event_types self w).1)
  ∧ (send (call_of self "GET" "/api/subscriptions" None) (backend w) = (Reply r, b) →
     Exists (λ item, ∃ e, call_kwargs Subscription item = inl e) items →
     fails_at_first_bad Subscription items (get_subscriptions self w).1)
  ∧ (send (call_of self "GET" "/api/dispatch-jobs" None) (backend w) = (Reply r, b) →
     Exists (λ item, ∃ e, call_kwargs DispatchJob item = inl e) items →
     fails_at_first_bad DispatchJob items (get_dispatch_jobs self w).1).
Proof.
  intros Hr Hbody.
  unfold get_event_types, get_subscriptions, get_dispatch_jobs.
  repeat split; intros Hsend Hex; rewrite facade_exchange, Hsend; simpl;
    rewrite bool_decide_eq_false_2 by lia;
    unfold Response_json; rewrite Hbody;
    by apply each_fails_at_first_bad.
Qed.

End ListOperations.

(** ** Session headers, base URL and timeout *)

Section Construction.
Context `{!Coercions, !Library, !Backend}.

Lemma truthy_Some k : truthy (Some k) = bool_decide (k ≠ ""%string).
Proof.
  unfold truthy. destruct (String.eqb_spec k ""); case_bool_decide; done.
Qed.


Lemma get_setitem_ne h key value d :
  CaseInsensitiveDict.lower h ≠ CaseInsensitiveDict.lower key →
  CaseInsensitiveDict.get h (CaseInsensitiveDict.setitem key value d)
  = CaseInsensitiveDict.get h d.
Proof.
  intros Hh. unfold CaseInsensitiveDict.get, CaseInsensitiveDict.setitem.
  by rewrite lookup_insert_ne.
Qed.

(** The headers of the session are fixed by the constructor. *)
Lemma __init___headers base key tmo :
  Session.headers (session (__init__ base key tmo)) =
    match key with
    | Some k =>
        if bool_decide (k ≠ ""%string)
        then CaseInsensitiveDict.setitem "Authorization" ("Bearer " +:+ k) default_headers
        else default_headers
    | None => default_headers
    end.
Proof.
  unfold __init__. simpl. destruct key as [k|]; [|reflexivity].
  rewrite truthy_Some. case_bool_decide; reflexivity.
Qed.

Lemma call_for_headers self c :
  Call.session_headers (call_for self c) = Session.headers (session self).
Proof. destruct c; reflexivity. Qed.


End Construction.

Section BaseUrl.
Context `{!Library, !Backend}.

Lemma in_chars_slash a : in_chars a "/" = Ascii.eqb a "/".
Proof. unfold in_chars. simpl. apply orb_false_r. Qed.

(** [rstrip("/")] removes a run of slashes from the end ... *)
Lemma rstrip_slashes s : ∃ n, s = rstrip "/" s +:+ slashes n.
Proof.
  induction s as [|a s [n IH]]; [by exists O|]. simpl.
  destruct (rstrip "/" s) as [|c r] eqn:Hr.
  - rewrite in_chars_slash. destruct (Ascii.eqb_spec a "/") as [->|_].
    + exists (S n). string_simpl. by rewrite IH at 1.
    + exists n. string_simpl. by rewrite IH at 1.
  - exists n. string_simpl. by rewrite IH at 1.
Qed.

(** ... and the whole run: what is left does not end in a slash. *)
Lemma rstrip_no_trailing_slash s t : rstrip "/" s ≠ t +:+ "/".
Proof.
  revert t. induction s as [|a s IH]; intros t; simpl.
  - by destruct t.
  - destruct (rstrip "/" s) as [|c r] eqn:Hr.
    + rewrite in_chars_slash. destruct (Ascii.eqb_spec a "/") as [->|Ha].
      * by destruct t.
      * destruct t as [|b [|b' t]]; string_simpl; congruence.
    + destruct t as [|b t]; string_simpl; [congruence|].
      intros [= _ Ht]. by apply (IH t).
Qed.



Lemma slashes_snoc n : slashes (S n) = slashes n +:+ "/".
Proof.
  induction n as [|n IH]; [reflexivity|].
  change (slashes (S (S n))) with (String "/" (slashes (S n))).
  rewrite IH at 1. reflexivity.
Qed.

Lemma append_assoc (a b c : string) : (a +:+ b) +:+ c = a +:+ (b +:+ c).
Proof. induction a as [|x a IH]; string_simpl; [reflexivity | by rewrite IH]. Qed.

Lemma append_empty_r (a : string) : a +:+ "" = a.
Proof. induction a as [|x a IH]; string_simpl; [reflexivity | by rewrite IH]. Qed.



End BaseUrl.

(** ** Records *)

Section Records.
Context `{!Coercions}.

Lemma fails_ap_l {A B} (f : validated (A → B)) (x : validated A) le :
  fails_with f le → fails_with (f <*> x) le.
Proof.
  intros (errs & -> & Hin). destruct x as [errs'|a]; simpl.
  - exists (errs ++ errs'). split; [reflexivity | apply elem_of_app; auto].
  - exists errs. auto.
Qed.

Lemma fails_ap_r {A B} (f : validated (A → B)) (x : validated A) le :
  fails_with x le → fails_with (f <*> x) le.
Proof.
  intros (errs & -> & Hin). destruct f as [errs'|g]; simpl.
  - exists (errs' ++ errs). split; [reflexivity | apply elem_of_app; auto].
  - exists errs. auto.
Qed.

Lemma fails_required_missing {A} name (v : validator A) data :
  data !! name = None → fails_with (required name v data) (name, "missing"%string).
Proof.
  intros Hm. unfold required. rewrite Hm.
  eexists. split; [reflexivity | apply list_elem_of_singleton; reflexivity].
Qed.

Lemma fails_required_invalid {A} name (v : validator A) data x ty :
  data !! name = Some x → v x = inl ty → fails_with (required name v data) (name, ty).
Proof.
  intros Hx Hv. unfold required. rewrite Hx, Hv.
  eexists. split; [reflexivity | apply list_elem_of_singleton; reflexivity].
Qed.

Lemma ap_inr_inv {A B} (f : validated (A → B)) (x : validated A) b :
  f <*> x = inr b → ∃ g a, f = inr g ∧ x = inr a ∧ b = g a.
Proof. destruct f, x; simpl; intros [= <-]; eauto. Qed.

Lemma required_inr_inv {A} name (v : validator A) data a :
  required name v data = inr a → ∃ x, data !! name = Some x ∧ v x = inr a.
Proof.
  unfold required. destruct (data !! name) as [x|]; [|discriminate].
  destruct (v x) eqn:Hv; [discriminate|]. intros [= <-]. eauto.
Qed.

(** A value without the declared shape is refused by the field's
    validator. *)
Lemma has_shape_false_str v : has_shape Str v = false → v_str v = inl "string_type"%string.
Proof. by destruct v. Qed.

Lemma has_shape_false_literal values v :
  has_shape (Literal values) v = false → v_literal values v = inl "literal_error"%string.
Proof. destruct v; simpl; try done. by intros ->. Qed.

Lemma has_shape_false_datetime v :
  has_shape Datetime v = false → v_datetime v = inl "datetime_type"%string.
Proof. by destruct v. Qed.

(** C2. Building a [Subscription] from data in which a declared field is
    missing, or holds a value that has not the declared shape (a string for
    [id], [event_type_id] and [endpoint]; one of active, paused, failed for
    [status]; a timestamp for [created_at]) raises a [ValidationError],
    which names that field. A [status] of "cancelled" is such a value. *)
Theorem Subscription_rejects data f a :
  (f, a) ∈ Subscription_annotations →
  data !! f = None ∨ (∃ v, data !! f = Some v ∧ has_shape a v = false) →
  ∃ errs ty, Subscription data = inl (ValidationError errs) ∧ (f, ty) ∈ errs.
Proof.
  intros Hin Hbad.
  assert (∃ ty, fails_with (Subscription_fields data) (f, ty)) as (ty & errs & Hf & Hty).
  { unfold Subscription_annotations in Hin.
    repeat (apply elem_of_cons in Hin as [[= -> ->]|Hin]);
      [..|by apply elem_of_nil in Hin];
      (destruct Hbad as [Hm|(v & Hv & Hs)];
       [ exists "missing"%string
       | first [ apply has_shape_false_str in Hs
               | apply has_shape_false_literal in Hs
               | apply has_shape_false_datetime in Hs ];
         eexists ]);
      unfold Subscription_fields;
      repeat first [ apply fails_ap_r; solve [eauto using fails_required_missing,
                                               fails_required_invalid]
                   | apply fails_ap_l ]. }
  exists errs, ty. unfold Subscription, init. rewrite Hf. auto.
Qed.

(** C8. From an object whose five fields hold values of the declared types,
    [EventType] builds a record whose fields are those very values. The
    timestamp may also come the way JSON carries it, as a string: the record
    then holds the datetime that string stands for. Other keys of the object
    are ignored. *)
Theorem EventType_roundtrip data id name version schema c created_at :
  data !! "id"%string = Some (PStr id) →
  data !! "name"%string = Some (PStr name) →
  data !! "version"%string = Some (PStr version) →
  data !! "schema"%string = Some (PDict schema) →
  data !! "created_at"%string = Some c →
  c = PDatetime created_at ∨ (∃ s, c = PStr s ∧ str_as_datetime s = inr created_at) →
  ∃ e, EventType data = inr e ∧
    EventType.id e = id ∧
    EventType.name e = name ∧
    EventType.version e = version ∧
    EventType.schema e = PDict schema ∧
    EventType.created_at e = created_at.
Proof.
  intros Hid Hname Hversion Hschema Hcreated Hc.
  unfold EventType, init, EventType_fields, declared, optional, required.
  rewrite Hid, Hname, Hversion, Hcreated.
  destruct schema_default; rewrite Hschema;
    (destruct Hc as [-> | (s & -> & Hs)]; simpl; [|rewrite Hs; simpl];
     (eexists; split; [reflexivity|]; by repeat split)).
Qed.

(** A timestamp that arrives as a JSON string is read by the coercion: the
    record holds the datetime the string stands for. *)
Lemma EventType_created_at_wire data e s :
  EventType data = inr e →
  data !! "created_at"%string = Some (PStr s) →
  str_as_datetime s = inr (EventType.created_at e).
Proof.
  unfold EventType, init. destruct (EventType_fields data) as [|e'] eqn:Hf; [discriminate|].
  intros [= ->] Hc. unfold EventType_fields in Hf.
  repeat (apply ap_inr_inv in Hf as (? & ? & Hf & ? & ->)).
  injection Hf as <-. simpl.
  match goal with
  | Hr : required "created_at" _ _ = inr _ |- _ =>
      apply required_inr_inv in Hr as (c & Hx & Hv)
  end.
  rewrite Hc in Hx. injection Hx as <-. exact Hv.
Qed.

(** C9, as amended. A [DispatchJob] that was built has one of the four
    statuses, and its [completed_at] follows the data alone: it is absent
    when the object has no [completed_at] or has [null] there, and is the
    validated timestamp of the object otherwise. The status plays no part
    in it. *)
Theorem DispatchJob_completed_at data job :
  DispatchJob data = inr job →
  DispatchJob.status job ∈ DispatchJob.statuses ∧
  data !! "status"%string = Some (PStr (DispatchJob.status job)) ∧
  (data !! "completed_at"%string = None ∨ data !! "completed_at"%string = Some PNone →
     DispatchJob.completed_at job = None) ∧
  (∀ c, data !! "completed_at"%string = Some c → c ≠ PNone →
     ∃ t, v_datetime c = inr t ∧ DispatchJob.completed_at job = Some t).
Proof.
  unfold DispatchJob, init.
  destruct (DispatchJob_fields data) as [|job'] eqn:Hf; [discriminate|].
  intros [= ->]. unfold DispatchJob_fields in Hf.
  apply ap_inr_inv in Hf as (? & completed & Hf & Hcompleted & ->).
  apply ap_inr_inv in Hf as (? & created & Hf & _ & ->).
  apply ap_inr_inv in Hf as (? & attempts & Hf & _ & ->).
  apply ap_inr_inv in Hf as (? & status & Hf & Hstatus & ->).
  apply ap_inr_inv in Hf as (? & sid & Hf & _ & ->).
  apply ap_inr_inv in Hf as (? & eid & Hf & _ & ->).
  apply ap_inr_inv in Hf as (? & jid & Hf & _ & ->).
  injection Hf as <-. simpl.
  apply required_inr_inv in Hstatus as (x & Hx & Hv).
  assert (x = PStr status ∧ status ∈ DispatchJob.statuses) as [-> Hmem].
  { destruct x; try discriminate. simpl in Hv. case_bool_decide; [|discriminate].
    injection Hv as <-. done. }
  split; [exact Hmem|]. split; [exact Hx|].
  unfold optional in Hcompleted. split.
  - intros [Hc|Hc]; rewrite Hc in Hcompleted; simpl in Hcompleted; congruence.
  - intros c Hc Hnone. rewrite Hc in Hcompleted.
    unfold v_optional in Hcompleted.
    destruct (v_datetime c) as [|t] eqn:Hv'.
    + destruct c; simpl in *; congruence.
    + exists t. split; [reflexivity|]. destruct c; simpl in *; congruence.
Qed.

End Records.

(** ** Every public call is one call of the session *)

Section Exchange.
Context `{!Coercions, !Library, !Backend}.

(** What a public call returns and leaves behind, from the way its one call
    of [Session.request] ends. *)
Lemma invoke_exchange self c w :
  invoke self c w =
    (match (send (call_for self c) (backend w)).1 with
     | Reply r =>
         if bool_decide (400 ≤ status_code r < 600) then inl (HTTPError r)
         else match Response_json r with
              | inl e => inl e
              | inr body => build c body
              end
     | Raise cls => inl (Raised cls)
     end,
     {| backend := (send (call_for self c) (backend w)).2;
        session_calls := session_calls w ++ [call_for self c] |}).
Proof.
  destruct c; simpl; unfold bind at 1;
    unfold get_event_types, get_event_type, create_event_type, get_subscriptions,
      get_subscription, create_subscription, get_dispatch_jobs, get_dispatch_job;
    rewrite facade_exchange;
    match goal with
    | |- context [send ?q ?b] => destruct (send q b) as [[r|cls] b']
    end; simpl; try reflexivity;
    (case_bool_decide; [reflexivity|]);
    (destruct (Response_json r) as [e|body]; [reflexivity|]);
    unfold wrap, ret;
    match goal with
    | |- context [match ?x with inl _ => _ | inr _ => _ end] => destruct x
    end; reflexivity.
Qed.

(** X1. When [Session.request] raises (connection refused, timeout, ...),
    every public method fails with that exception; [Session.request] was
    called once and is not called again. *)
Theorem transport_error_propagates self c w cls b :
  send (call_for self c) (backend w) = (Raise cls, b) →
  invoke self c w =
    (inl (Raised cls),
     {| backend := b; session_calls := session_calls w ++ [call_for self c] |}).
Proof. intros Hsend. rewrite invoke_exchange, Hsend. reflexivity. Qed.

(** X2. A sequence of public calls makes one call of [Session.request] per
    public call, in call order, each with the arguments of that public call
    and whether the calls before it failed or not: the client itself caches
    nothing, batches nothing and retries nothing. How many requests
    [requests] sends for a call is not the client's. *)
Theorem one_session_request_per_call self calls w :
  run self calls w =
    {| backend := served self calls (backend w);
       session_calls := session_calls w ++ (call_for self <$> calls) |}.
Proof.
  revert w. induction calls as [|c calls IH]; intros w; simpl.
  - rewrite app_nil_r. by destruct w.
  - rewrite IH, invoke_exchange. simpl. by rewrite <- app_assoc.
Qed.

(** X3. A response without an error status whose body is not JSON makes
    every public method fail with [JSONDecodeError]. *)
Theorem undecodable_body self c w r b :
  send (call_for self c) (backend w) = (Reply r, b) →
  ¬ (400 ≤ status_code r < 600) →
  loads (text r) = NotJSON →
  (invoke self c w).1 = inl JSONDecodeError.
Proof.
  intros Hsend Hr Hbody. rewrite invoke_exchange, Hsend. simpl.
  rewrite bool_decide_eq_false_2 by exact Hr.
  unfold Response_json. by rewrite Hbody.
Qed.

(** X22. When [Session.request] returns, to any public method, a response
    with a status from 400 to 599, the method fails with the [HTTPError]
    carrying that response; the body is not decoded and [Session.request] is
    not called again. *)
Theorem error_status_fails_every_call self c w r b :
  send (call_for self c) (backend w) = (Reply r, b) →
  400 ≤ status_code r < 600 →
  invoke self c w =
    (inl (HTTPError r), {| backend := b; session_calls := session_calls w ++ [call_for self c] |}).
Proof.
  intros Hsend Hr. rewrite invoke_exchange, Hsend. simpl.
  by rewrite bool_decide_eq_true_2.
Qed.

End Exchange.

(** ** Models, field by field *)

Section Models.
Context `{!Coercions}.

Lemma reports_pure {A} (a : A) : reports [] (inr a : validated A).
Proof. exact I. Qed.

Lemma reports_required {A} name (v : validator A) data :
  reports [name] (required name v data).
Proof.
  unfold required. destruct (data !! name) as [x|]; [destruct (v x)|]; simpl; done.
Qed.

Lemma reports_optional {A} name (v : validator A) dflt data :
  reports [name] (optional name v dflt data).
Proof.
  unfold optional. destruct (data !! name) as [x|]; [destruct (v x)|]; simpl; done.
Qed.

Lemma reports_declared {A} name (v : validator A) dflt data :
  reports [name] (declared name v dflt data).
Proof. destruct dflt; [apply reports_optional | apply reports_required]. Qed.

Lemma reports_ap {A B} ns ms (f : validated (A → B)) (x : validated A) :
  reports ns f → reports ms x → reports (ns ++ ms) (f <*> x).
Proof.
  destruct f as [e1|g], x as [e2|a]; simpl; try done.
  - intros [Hne1 Hs1] [Hne2 Hs2]. split.
    + intros Happ. by apply app_eq_nil in Happ as [? _].
    + rewrite fmap_app. by apply sublist_app.
  - intros [Hne1 Hs1] _. split; [done|]. by apply sublist_inserts_r.
  - intros _ [Hne2 Hs2]. split; [done|]. by apply sublist_inserts_l.
Qed.

Lemma init_reports {A} names (fields : gmap string pyval → validated A) data e :
  reports names (fields data) →
  init fields data = inl e →
  ∃ errs, e = ValidationError errs ∧ errs ≠ [] ∧ errs.*1 `sublist_of` names.
Proof.
  unfold init. destruct (fields data) as [errs|a]; [|discriminate].
  intros [Hne Hsub] [= <-]. eauto.
Qed.

Lemma EventType_fields_reports data : reports EventType_names (EventType_fields data).
Proof.
  unfold EventType_fields.
  exact (reports_ap _ _ _ _ (reports_ap _ _ _ _ (reports_ap _ _ _ _ (reports_ap _ _ _ _
    (reports_ap _ _ _ _ (reports_pure _) (reports_required _ _ _))
    (reports_required _ _ _)) (reports_required _ _ _)) (reports_declared _ _ _ _))
    (reports_required _ _ _)).
Qed.

Lemma Subscription_fields_reports data :
  reports Subscription_names (Subscription_fields data).
Proof.
  unfold Subscription_fields.
  exact (reports_ap _ _ _ _ (reports_ap _ _ _ _ (reports_ap _ _ _ _ (reports_ap _ _ _ _
    (reports_ap _ _ _ _ (reports_pure _) (reports_required _ _ _))
    (reports_required _ _ _)) (reports_required _ _ _)) (reports_required _ _ _))
    (reports_required _ _ _)).
Qed.

Lemma DispatchJob_fields_reports data :
  reports DispatchJob_names (DispatchJob_fields data).
Proof.
  unfold DispatchJob_fields.
  exact (reports_ap _ _ _ _ (reports_ap _ _ _ _ (reports_ap _ _ _ _ (reports_ap _ _ _ _
    (reports_ap _ _ _ _ (reports_ap _ _ _ _ (reports_ap _ _ _ _ (reports_pure _)
    (reports_required _ _ _)) (reports_required _ _ _)) (reports_required _ _ _))
    (reports_required _ _ _)) (reports_required _ _ _)) (reports_required _ _ _))
    (reports_optional _ _ _ _)).
Qed.

Lemma ApiResponse_fields_reports data :
  reports ApiResponse_names (ApiResponse_fields data).
Proof.
  unfold ApiResponse_fields.
  exact (reports_ap _ _ _ _ (reports_ap _ _ _ _ (reports_pure _)
    (reports_optional _ _ _ _)) (reports_optional _ _ _ _)).
Qed.

(** X4. When a model refuses its data, the exception is a [ValidationError]
    with at least one line error; the line errors name declared fields only,
    each at most once, in the order of the class body. *)
Theorem ValidationError_names_fields data e :
  (EventType data = inl e →
     ∃ errs, e = ValidationError errs ∧ errs ≠ [] ∧ errs.*1 `sublist_of` EventType_names)
  ∧ (Subscription data = inl e →
       ∃ errs, e = ValidationError errs ∧ errs ≠ []
               ∧ errs.*1 `sublist_of` Subscription_names)
  ∧ (DispatchJob data = inl e →
       ∃ errs, e = ValidationError errs ∧ errs ≠ []
               ∧ errs.*1 `sublist_of` DispatchJob_names)
  ∧ (ApiResponse data = inl e →
       ∃ errs, e = ValidationError errs ∧ errs ≠ []
               ∧ errs.*1 `sublist_of` ApiResponse_names).
Proof.
  repeat split.
  - apply init_reports, EventType_fields_reports.
  - apply init_reports, Subscription_fields_reports.
  - apply init_reports, DispatchJob_fields_reports.
  - apply init_reports, ApiResponse_fields_reports.
Qed.

Lemma v_str_inr v a : v_str v = inr a → v = PStr a.
Proof. destruct v; simpl; congruence. Qed.

Lemma v_dict_inr v a : v_dict v = inr a → (∃ d, v = PDict d) ∧ a = v.
Proof. destruct v; simpl; try discriminate. intros [= <-]. eauto. Qed.

Lemma declared_inr_inv {A} name (v : validator A) dflt data a :
  declared name v dflt data = inr a →
  match data !! name with
  | Some x => v x = inr a
  | None => dflt = Some a
  end.
Proof.
  unfold declared, optional, required.
  destruct dflt as [d|], (data !! name) as [x|]; try discriminate;
    try (destruct (v x); congruence); congruence.
Qed.

Lemma v_literal_inr allowed v a : v_literal allowed v = inr a → v = PStr a ∧ a ∈ allowed.
Proof.
  destruct v; simpl; try discriminate.
  case_bool_decide; [|discriminate]. intros [= <-]. done.
Qed.

Lemma required_str_inr name data a :
  required name v_str data = inr a → data !! name = Some (PStr a).
Proof. intros (x & Hx & Hv)%required_inr_inv. by apply v_str_inr in Hv as ->. Qed.

Lemma required_literal_inr name allowed data a :
  required name (v_literal allowed) data = inr a →
  data !! name = Some (PStr a) ∧ a ∈ allowed.
Proof.
  intros (x & Hx & Hv)%required_inr_inv. by apply v_literal_inr in Hv as [-> ?].
Qed.

Lemma Subscription_fields_inv data s :
  Subscription_fields data = inr s →
  data !! "id"%string = Some (PStr (Subscription.id s)) ∧
  data !! "event_type_id"%string = Some (PStr (Subscription.event_type_id s)) ∧
  data !! "endpoint"%string = Some (PStr (Subscription.endpoint s)) ∧
  data !! "status"%string = Some (PStr (Subscription.status s)) ∧
  Subscription.status s ∈ Subscription.statuses ∧
  ∃ c, data !! "created_at"%string = Some c ∧ v_datetime c = inr (Subscription.created_at s).
Proof.
  unfold Subscription_fields. intros Hf.
  apply ap_inr_inv in Hf as (? & created & Hf & Hcreated & ->).
  apply ap_inr_inv in Hf as (? & status & Hf & Hstatus & ->).
  apply ap_inr_inv in Hf as (? & endpoint & Hf & Hendpoint & ->).
  apply ap_inr_inv in Hf as (? & etid & Hf & Hetid & ->).
  apply ap_inr_inv in Hf as (? & sid & Hf & Hsid & ->).
  injection Hf as <-. simpl.
  apply required_literal_inr in Hstatus as [Hstatus Hmem].
  apply required_inr_inv in Hcreated.
  eauto 10 using required_str_inr.
Qed.

Lemma EventType_fields_inv data e :
  EventType_fields data = inr e →
  data !! "id"%string = Some (PStr (EventType.id e)) ∧
  data !! "name"%string = Some (PStr (EventType.name e)) ∧
  data !! "version"%string = Some (PStr (EventType.version e)) ∧
  match data !! "schema"%string with
  | Some v => (∃ d, v = PDict d) ∧ EventType.schema e = v
  | None => schema_default = Some (EventType.schema e)
  end ∧
  ∃ c, data !! "created_at"%string = Some c ∧ v_datetime c = inr (EventType.created_at e).
Proof.
  unfold EventType_fields. intros Hf.
  apply ap_inr_inv in Hf as (? & created & Hf & Hcreated & ->).
  apply ap_inr_inv in Hf as (? & schema & Hf & Hschema & ->).
  apply ap_inr_inv in Hf as (? & version & Hf & Hversion & ->).
  apply ap_inr_inv in Hf as (? & name & Hf & Hname & ->).
  apply ap_inr_inv in Hf as (? & eid & Hf & Heid & ->).
  injection Hf as <-. simpl.
  apply required_inr_inv in Hcreated.
  apply declared_inr_inv in Hschema.
  repeat split; eauto using required_str_inr.
  destruct (data !! "schema"%string) as [v|]; [|exact Hschema].
  by apply v_dict_inr in Hschema.
Qed.

Lemma DispatchJob_fields_inv data j :
  DispatchJob_fields data = inr j →
  data !! "id"%string = Some (PStr (DispatchJob.id j)) ∧
  data !! "event_id"%string = Some (PStr (DispatchJob.event_id j)) ∧
  data !! "subscription_id"%string = Some (PStr (DispatchJob.subscription_id j)) ∧
  DispatchJob.status j ∈ DispatchJob.statuses ∧
  (∃ a, data !! "attempts"%string = Some a ∧ v_int a = inr (DispatchJob.attempts j)) ∧
  ∃ c, data !! "created_at"%string = Some c ∧ v_datetime c = inr (DispatchJob.created_at j).
Proof.
  unfold DispatchJob_fields. intros Hf.
  apply ap_inr_inv in Hf as (? & completed & Hf & _ & ->).
  apply ap_inr_inv in Hf as (? & created & Hf & Hcreated & ->).
  apply ap_inr_inv in Hf as (? & attempts & Hf & Hattempts & ->).
  apply ap_inr_inv in Hf as (? & status & Hf & Hstatus & ->).
  apply ap_inr_inv in Hf as (? & sid & Hf & Hsid & ->).
  apply ap_inr_inv in Hf as (? & eid & Hf & Heid & ->).
  apply ap_inr_inv in Hf as (? & jid & Hf & Hjid & ->).
  injection Hf as <-. simpl.
  apply required_literal_inr in Hstatus as [_ Hmem].
  apply required_inr_inv in Hcreated. apply required_inr_inv in Hattempts.
  eauto 10 using required_str_inr.
Qed.

Lemma init_inr {A} (fields : gmap string pyval → validated A) data a :
  init fields data = inr a → fields data = inr a.
Proof. unfold init. destruct (fields data); congruence. Qed.

(** X5. Every field of a [Subscription] that was built is the value the data
    held under that name: the three strings are JSON strings taken as they
    are, the status is one of active, paused, failed, and the timestamp is
    the validated [created_at] of the data. *)
Theorem Subscription_fields_from_data data s :
  Subscription data = inr s →
  data !! "id"%string = Some (PStr (Subscription.id s)) ∧
  data !! "event_type_id"%string = Some (PStr (Subscription.event_type_id s)) ∧
  data !! "endpoint"%string = Some (PStr (Subscription.endpoint s)) ∧
  data !! "status"%string = Some (PStr (Subscription.status s)) ∧
  Subscription.status s ∈ Subscription.statuses ∧
  ∃ c, data !! "created_at"%string = Some c ∧ v_datetime c = inr (Subscription.created_at s).
Proof. intros Hs%init_inr. by apply Subscription_fields_inv. Qed.

(** X6. The fields of an [EventType] that was built come from the data:
    [id], [name] and [version] are JSON strings taken as they are and
    [created_at] is the validated timestamp. When the data has a [schema] it
    is an object and the record holds it; when the data has none, a record
    is built only where pydantic gives the field a default of its own, and
    the record then holds that default. *)
Theorem EventType_fields_from_data data e :
  EventType data = inr e →
  data !! "id"%string = Some (PStr (EventType.id e)) ∧
  data !! "name"%string = Some (PStr (EventType.name e)) ∧
  data !! "version"%string = Some (PStr (EventType.version e)) ∧
  match data !! "schema"%string with
  | Some v => (∃ d, v = PDict d) ∧ EventType.schema e = v
  | None => schema_default = Some (EventType.schema e)
  end ∧
  ∃ c, data !! "created_at"%string = Some c ∧ v_datetime c = inr (EventType.created_at e).
Proof. intros He%init_inr. by apply EventType_fields_inv. Qed.

(** X7. The identifiers of a [DispatchJob] that was built are the JSON
    strings of the data, and its attempt counter and creation timestamp are
    the validated [attempts] and [created_at] of the data. *)
Theorem DispatchJob_fields_from_data data j :
  DispatchJob data = inr j →
  data !! "id"%string = Some (PStr (DispatchJob.id j)) ∧
  data !! "event_id"%string = Some (PStr (DispatchJob.event_id j)) ∧
  data !! "subscription_id"%string = Some (PStr (DispatchJob.subscription_id j)) ∧
  (∃ a, data !! "attempts"%string = Some a ∧ v_int a = inr (DispatchJob.attempts j)) ∧
  ∃ c, data !! "created_at"%string = Some c ∧ v_datetime c = inr (DispatchJob.created_at j).
Proof.
  intros Hj%init_inr. apply DispatchJob_fields_inv in Hj.
  destruct Hj as (? & ? & ? & _ & ? & ?). done.
Qed.

Lemma required_insert_ne {A} name (v : validator A) data k x :
  k ≠ name → required name v (<[k:=x]> data) = required name v data.
Proof. intros Hk. unfold required. by rewrite lookup_insert_ne. Qed.

Lemma optional_insert_ne {A} name (v : validator A) dflt data k x :
  k ≠ name → optional name v dflt (<[k:=x]> data) = optional name v dflt data.
Proof. intros Hk. unfold optional. by rewrite lookup_insert_ne. Qed.

Lemma declared_insert_ne {A} name (v : validator A) dflt data k x :
  k ≠ name → declared name v dflt (<[k:=x]> data) = declared name v dflt data.
Proof.
  intros Hk. unfold declared.
  destruct dflt; by rewrite ?optional_insert_ne, ?required_insert_ne.
Qed.

(** X8. A key that is not a declared field has no effect on the model built
    from the data: unknown keys the server adds are dropped, neither kept nor
    rejected. *)
Theorem unknown_keys_ignored data k x :
  (k ∉ EventType_names → EventType (<[k:=x]> data) = EventType data)
  ∧ (k ∉ Subscription_names → Subscription (<[k:=x]> data) = Subscription data)
  ∧ (k ∉ DispatchJob_names → DispatchJob (<[k:=x]> data) = DispatchJob data)
  ∧ (k ∉ ApiResponse_names → ApiResponse (<[k:=x]> data) = ApiResponse data).
Proof.
  repeat split; intros Hk;
    unfold EventType, Subscription, DispatchJob, ApiResponse, init,
      EventType_fields, Subscription_fields, DispatchJob_fields, ApiResponse_fields;
    repeat (apply not_elem_of_cons in Hk as [? Hk]);
    rewrite ?required_insert_ne, ?optional_insert_ne, ?declared_insert_ne by done;
    reflexivity.
Qed.

(** X9. An [ApiResponse] is built from any data whose [error], if present,
    is [null] or a string: both fields default to [None] when absent, and
    [data] takes any value as it is. *)
Theorem ApiResponse_accepts data :
  (∀ v, data !! "error"%string = Some v → v = PNone ∨ ∃ s, v = PStr s) →
  ∃ r, ApiResponse data = inr r ∧
    ApiResponse.data r =
      match data !! "data"%string with
      | None | Some PNone => None
      | Some v => Some v
      end ∧
    ApiResponse.error r =
      match data !! "error"%string with
      | Some (PStr s) => Some s
      | _ => None
      end.
Proof.
  intros Herror. unfold ApiResponse, init, ApiResponse_fields, optional.
  destruct (data !! "error"%string) as [v|].
  - destruct (Herror v eq_refl) as [-> | [s ->]];
      destruct (data !! "data"%string) as [[]|]; simpl;
      (eexists; split; [reflexivity|]; split; reflexivity).
  - destruct (data !! "data"%string) as [[]|]; simpl;
      (eexists; split; [reflexivity|]; split; reflexivity).
Qed.

(** X23. From data whose fields hold values of the declared types, with a
    status of the enumerated set, [Subscription] builds the record of those
    values; a timestamp given as a JSON string is stored as the datetime the
    string stands for. *)
Theorem Subscription_accepts data id event_type_id endpoint status c created_at :
  data !! "id"%string = Some (PStr id) →
  data !! "event_type_id"%string = Some (PStr event_type_id) →
  data !! "endpoint"%string = Some (PStr endpoint) →
  data !! "status"%string = Some (PStr status) →
  status ∈ Subscription.statuses →
  data !! "created_at"%string = Some c →
  c = PDatetime created_at ∨ (∃ s, c = PStr s ∧ str_as_datetime s = inr created_at) →
  Subscription data =
    inr {| Subscription.id := id; Subscription.event_type_id := event_type_id;
           Subscription.endpoint := endpoint; Subscription.status := status;
           Subscription.created_at := created_at |}.
Proof.
  intros Hid Hetid Hendpoint Hstatus Hmem Hcreated Hc.
  unfold Subscription, init, Subscription_fields, required.
  rewrite Hid, Hetid, Hendpoint, Hstatus, Hcreated. simpl.
  rewrite bool_decide_eq_true_2 by exact Hmem.
  destruct Hc as [-> | (s & -> & Hs)]; simpl; [|rewrite Hs]; reflexivity.
Qed.

(** X24. From data whose fields hold values of the declared types, with a
    status of the enumerated set and an integer attempt counter,
    [DispatchJob] builds the record of those values; [completed_at] is
    [None] when the data omits it or has [null], and the given datetime
    otherwise. *)
Theorem DispatchJob_accepts data id event_id subscription_id status attempts
    created_at completed :
  data !! "id"%string = Some (PStr id) →
  data !! "event_id"%string = Some (PStr event_id) →
  data !! "subscription_id"%string = Some (PStr subscription_id) →
  data !! "status"%string = Some (PStr status) →
  status ∈ DispatchJob.statuses →
  data !! "attempts"%string = Some (PInt attempts) →
  data !! "created_at"%string = Some (PDatetime created_at) →
  match completed with
  | None => data !! "completed_at"%string = None
            ∨ data !! "completed_at"%string = Some PNone
  | Some t => data !! "completed_at"%string = Some (PDatetime t)
  end →
  DispatchJob data =
    inr {| DispatchJob.id := id; DispatchJob.event_id := event_id;
           DispatchJob.subscription_id := subscription_id;
           DispatchJob.status := status; DispatchJob.attempts := attempts;
           DispatchJob.created_at := created_at;
           DispatchJob.completed_at := completed |}.
Proof.
  intros Hid Heid Hsid Hstatus Hmem Hattempts Hcreated Hcompleted.
  unfold DispatchJob, init, DispatchJob_fields, required, optional.
  rewrite Hid, Heid, Hsid, Hstatus, Hattempts, Hcreated. simpl.
  rewrite bool_decide_eq_true_2 by exact Hmem.
  destruct completed as [t|]; [|destruct Hcompleted as [Hc|Hc]];
    rewrite ?Hcompleted, ?Hc; reflexivity.
Qed.

End Models.

(** ** What the calls return *)

Section Outcomes.
Context `{!Coercions, !Library, !Backend}.

Lemma comprehension_inl {A B} (f : A → result B) l e :
  comprehension f l = inl e → ∃ x, x ∈ l ∧ f x = inl e.
Proof.
  induction l as [|x l IH]; simpl; [discriminate|].
  destruct (f x) as [e'|y] eqn:Hx.
  - intros [= <-]. exists x. split; [left | exact Hx].
  - destruct (comprehension f l) as [e'|ys]; [|discriminate].
    intros [= <-]. destruct (IH eq_refl) as (x' & Hin & Hx').
    exists x'. split; [by right | exact Hx'].
Qed.

Lemma call_kwargs_inl {A} names (fields : gmap string pyval → validated A) v e :
  (∀ data, reports names (fields data)) →
  call_kwargs (init fields) v = inl e →
  e = TypeError ∨ ∃ errs, e = ValidationError errs ∧ errs ≠ [].
Proof.
  intros Hrep. destruct v; simpl; try (intros [= <-]; by left).
  intros (errs & -> & Hne & _)%(init_reports names); [|apply Hrep]. right. eauto.
Qed.

Lemma each_inl {A} names (fields : gmap string pyval → validated A) body e :
  (∀ data, reports names (fields data)) →
  each (init fields) body = inl e →
  e = TypeError ∨ ∃ errs, e = ValidationError errs ∧ errs ≠ [].
Proof.
  intros Hrep. unfold each. destruct (iter body) as [e'|items] eqn:Hiter.
  - intros [= <-]. left. destruct body; simpl in Hiter; congruence.
  - intros (x & _ & Hx)%comprehension_inl. by apply (call_kwargs_inl names fields x).
Qed.

Lemma wrap_inl {A} (f : A → answer) r e : wrap f r = inl e → r = inl e.
Proof. destruct r; simpl; congruence. Qed.

Lemma build_inl c body e :
  build c body = inl e → e = TypeError ∨ ∃ errs, e = ValidationError errs ∧ errs ≠ [].
Proof.
  destruct c; simpl; intros Hr%wrap_inl;
    first [ eapply each_inl, Hr | eapply call_kwargs_inl, Hr ];
    first [ apply EventType_fields_reports | apply Subscription_fields_reports
          | apply DispatchJob_fields_reports ].
Qed.

(** X10. A public method fails for one of four causes, with the exception
    of that cause. [Session.request] raised: the method raises the same.
    The response has a status from 400 to 599: the method raises the
    [HTTPError] carrying it. The JSON decoder raised on the body of a
    response with another status: the method raises the same, a
    [JSONDecodeError] when the body is not JSON. The body was decoded and
    the records cannot be built from it: the method raises a [TypeError] or
    a non-empty [ValidationError]. *)
Theorem failures_classified self c w e :
  (invoke self c w).1 = inl e →
  (∃ cls, (send (call_for self c) (backend w)).1 = Raise cls ∧ e = Raised cls)
  ∨ ∃ r, (send (call_for self c) (backend w)).1 = Reply r ∧
      (400 ≤ status_code r < 600 ∧ e = HTTPError r
       ∨ ¬ (400 ≤ status_code r < 600) ∧
         match loads (text r) with
         | NotJSON => e = JSONDecodeError
         | DecoderError cls => e = Raised cls
         | Decoded body =>
             build c body = inl e ∧
             (e = TypeError ∨ ∃ errs, e = ValidationError errs ∧ errs ≠ [])
         end).
Proof.
  rewrite invoke_exchange. simpl.
  destruct (send (call_for self c) (backend w)) as [[r|cls] b]; simpl.
  - intros He. right. exists r. split; [reflexivity|].
    case_bool_decide as Hr; [left; split; [exact Hr | congruence]|].
    right. split; [exact Hr|]. unfold Response_json in He.
    destruct (loads (text r)) as [body| |cls]; [|congruence..].
    split; [exact He | by apply build_inl in He].
  - intros [= <-]. left. eauto.
Qed.

Lemma comprehension_Forall {A B} (P : B → Prop) (f : A → result B) l ys :
  (∀ x y, f x = inr y → P y) → comprehension f l = inr ys → Forall P ys.
Proof.
  intros Hf. revert ys. induction l as [|x l IH]; intros ys; simpl.
  - intros [= <-]. constructor.
  - destruct (f x) as [|y] eqn:Hx; [discriminate|].
    destruct (comprehension f l) as [|ys']; [discriminate|].
    intros [= <-]. constructor; eauto.
Qed.

Lemma each_Forall {A} (P : A → Prop) (T : gmap string pyval → result A) body l :
  (∀ data a, T data = inr a → P a) → each T body = inr l → Forall P l.
Proof.
  intros HT. unfold each. destruct (iter body) as [|items]; [discriminate|].
  apply comprehension_Forall. intros [] a; simpl; try discriminate. apply HT.
Qed.

Lemma Subscription_status data s :
  Subscription data = inr s → Subscription.status s ∈ Subscription.statuses.
Proof. intros Hs%init_inr%Subscription_fields_inv. tauto. Qed.

Lemma DispatchJob_status data j :
  DispatchJob data = inr j → DispatchJob.status j ∈ DispatchJob.statuses.
Proof. intros Hj%init_inr%DispatchJob_fields_inv. tauto. Qed.

(** X11. Whatever the backend answers, a subscription or dispatch job that a
    public method returns, alone or in a sequence, has a status of its
    enumerated set. *)
Theorem answers_have_declared_statuses self c w a :
  (invoke self c w).1 = inr a → declared_statuses a.
Proof.
  rewrite invoke_exchange. simpl.
  destruct (send (call_for self c) (backend w)) as [[r|cls] b]; simpl; [|discriminate].
  case_bool_decide; [discriminate|].
  destruct (Response_json r) as [|body]; [discriminate|].
  destruct c; simpl;
    match goal with
    | |- wrap _ ?x = _ → _ => destruct x as [|res] eqn:Hres; simpl; [discriminate|]
    end; intros [= <-]; simpl; try exact I;
    first [ eapply each_Forall, Hres; first [apply Subscription_status | apply DispatchJob_status]
          | destruct body; simpl in Hres; try discriminate;
            first [ eapply Subscription_status, Hres | eapply DispatchJob_status, Hres ] ].
Qed.

Lemma each_dict {A} (T : gmap string pyval → result A) d :
  each T (PDict d) = if bool_decide (size d = 0%nat) then inr [] else inl TypeError.
Proof.
  unfold each. simpl. case_bool_decide as Hd.
  - apply map_size_empty_iff in Hd as ->. by rewrite map_to_list_empty.
  - destruct (map_to_list d) as [|[k v] rest] eqn:Hl; [|reflexivity].
    apply map_to_list_empty_iff in Hl as ->. by rewrite map_size_empty in Hd.
Qed.

Lemma each_str {A} (T : gmap string pyval → result A) s :
  each T (PStr s) = if String.eqb s "" then inr [] else inl TypeError.
Proof. unfold each. by destruct s. Qed.

Lemma each_not_list {A} (T : gmap string pyval → result A) body :
  (∀ l, body ≠ PList l) →
  each T body = if empty_container body then inr [] else inl TypeError.
Proof.
  intros Hbody. destruct body; try reflexivity.
  - apply each_str.
  - by destruct (Hbody l).
  - apply each_dict.
Qed.

(** X12. When the body of a response to a list operation is not an array,
    the operation does not fail as such: an empty object or an empty string
    gives the empty sequence; every other value, a non-empty object (an
    envelope around the array, say) included, gives a [TypeError]. *)
Theorem list_call_on_other_body self c w r b body :
  list_call c = true →
  send (call_for self c) (backend w) = (Reply r, b) →
  ¬ (400 ≤ status_code r < 600) →
  loads (text r) = Decoded body →
  (∀ l, body ≠ PList l) →
  (invoke self c w).1 =
    if empty_container body then inr (empty_answer c) else inl TypeError.
Proof.
  intros Hc Hsend Hr Hbody Hlist. rewrite invoke_exchange, Hsend. simpl.
  rewrite bool_decide_eq_false_2 by exact Hr.
  unfold Response_json. rewrite Hbody.
  destruct c; try discriminate; simpl; rewrite each_not_list by exact Hlist;
    by destruct (empty_container body).
Qed.

(** X13. A method that returns one record fails with a [TypeError] when the
    body of the response is anything but an object: an array, a string, a
    number, [null]. *)
Theorem record_call_needs_object self c w r b body :
  list_call c = false →
  send (call_for self c) (backend w) = (Reply r, b) →
  ¬ (400 ≤ status_code r < 600) →
  loads (text r) = Decoded body →
  (∀ d, body ≠ PDict d) →
  (invoke self c w).1 = inl TypeError.
Proof.
  intros Hc Hsend Hr Hbody Hdict. rewrite invoke_exchange, Hsend. simpl.
  rewrite bool_decide_eq_false_2 by exact Hr.
  unfold Response_json. rewrite Hbody.
  destruct c; try discriminate; destruct body; try reflexivity; by destruct (Hdict d).
Qed.




(** X16. [create_subscription] passes on the status it is given without
    checking it against the enumerated set; when the status is outside the
    set and the 2xx response echoes it, the [POST] has been made and the
    call fails with a [ValidationError] on [status]. *)
Theorem create_subscription_status_unchecked self event_type_id endpoint status w r b d :
  let req :=
    {| Call.method := "POST";
       Call.url := base_url self +:+ "/api/subscriptions";
       Call.session_headers := Session.headers (session self);
       Call.timeout := timeout self;
       Call.json :=
         Some (PDict {[ "event_type_id" := PStr event_type_id;
                        "endpoint" := PStr endpoint;
                        "status" := PStr status ]}) |} in
  status ∉ Subscription.statuses →
  send req (backend w) = (Reply r, b) →
  200 ≤ status_code r < 300 →
  loads (text r) = Decoded (PDict d) →
  d !! "status"%string = Some (PStr status) →
  ∃ errs,
    create_subscription self event_type_id endpoint (Some status) w =
      (inl (ValidationError errs), {| backend := b; session_calls := session_calls w ++ [req] |})
    ∧ ("status"%string, "literal_error"%string) ∈ errs.
Proof.
  intros req Hstatus Hsend Hr Hbody Hd. unfold create_subscription.
  rewrite facade_exchange.
  change (call_of self "POST" "/api/subscriptions" _) with req.
  rewrite Hsend. simpl. rewrite bool_decide_eq_false_2 by lia.
  unfold Response_json. rewrite Hbody. simpl.
  assert (fails_with (Subscription_fields d) ("status"%string, "literal_error"%string))
    as (errs & Hf & Hin).
  { unfold Subscription_fields. apply fails_ap_l, fails_ap_r.
    eapply fails_required_invalid; [exact Hd|]. simpl.
    by rewrite bool_decide_eq_false_2. }
  exists errs. unfold Subscription, init. rewrite Hf. done.
Qed.

End Outcomes.

(** ** What the constructor fixes *)

Section Fixed.
Context `{!Coercions, !Library, !Backend}.

(** X17. Setting the API key touches one entry of the session's headers,
    the one found under [Authorization] whatever the case of the letters:
    under every other name the session has, at every call the client makes,
    what a fresh session has, with any key or none. *)
Theorem other_headers_kept base key tmo calls w h :
  CaseInsensitiveDict.lower h ≠ "authorization"%string →
  ∃ made,
    session_calls (run (__init__ base key tmo) calls w) = session_calls w ++ made ∧
    length made = length calls ∧
    Forall (λ call,
      CaseInsensitiveDict.get h (Call.session_headers call)
      = CaseInsensitiveDict.get h default_headers) made.
Proof.
  intros Hh. exists (call_for (__init__ base key tmo) <$> calls).
  split; [apply run_calls|]. split; [apply length_fmap|].
  apply Forall_fmap, Forall_forall. intros c _. simpl.
  rewrite call_for_headers, __init___headers.
  destruct key as [k|]; [|reflexivity].
  case_bool_decide; [|reflexivity]. by apply get_setitem_ne.
Qed.

Lemma call_for_shape self c :
  (Call.method (call_for self c) = "GET"%string
     ∧ Call.json (call_for self c) = None
   ∨ Call.method (call_for self c) = "POST"%string
     ∧ ∃ d, Call.json (call_for self c) = Some (PDict d))
  ∧ (∃ rest, Call.url (call_for self c) = base_url self +:+ "/api/" +:+ rest)
  ∧ Call.timeout (call_for self c) = timeout self.
Proof.
  destruct c; simpl; (split; [|split; [|reflexivity]]);
    first [ left; split; reflexivity | right; split; [reflexivity|]; eexists; reflexivity
          | idtac ].
  - by exists "event-types"%string.
  - by exists ("event-types/" +:+ event_type_id)%string.
  - by exists "event-types"%string.
  - by exists "subscriptions"%string.
  - by exists ("subscriptions/" +:+ subscription_id)%string.
  - by exists "subscriptions"%string.
  - by exists "dispatch-jobs"%string.
  - by exists ("dispatch-jobs/" +:+ job_id)%string.
Qed.

(** X18. The client calls [Session.request] in two ways only: with method
    [GET] and no [json=] argument, or with method [POST] and a dict for
    [json=]. The URL it passes is always its base URL followed by [/api/]
    and a rest, and the timeout it passes is always its own. *)
Theorem calls_are_GET_or_POST_under_api self calls w :
  ∃ made,
    session_calls (run self calls w) = session_calls w ++ made ∧
    Forall (λ call,
      (Call.method call = "GET"%string ∧ Call.json call = None
       ∨ Call.method call = "POST"%string ∧ ∃ d, Call.json call = Some (PDict d))
      ∧ (∃ rest, Call.url call = base_url self +:+ "/api/" +:+ rest)
      ∧ Call.timeout call = timeout self) made.
Proof.
  exists (call_for self <$> calls). split; [apply run_calls|].
  apply Forall_fmap, Forall_forall. intros c _. apply call_for_shape.
Qed.

Lemma rstrip_idempotent chars s : rstrip chars (rstrip chars s) = rstrip chars s.
Proof.
  induction s as [|a s IH]; [reflexivity|]. simpl.
  destruct (rstrip chars s) as [|c r] eqn:Hr.
  - destruct (in_chars a chars) eqn:Ha; [reflexivity|]. simpl. by rewrite Ha.
  - change (rstrip chars (String a (String c r)))
      with (match rstrip chars (String c r) with
            | EmptyString => if in_chars a chars then EmptyString else String a EmptyString
            | r' => String a r'
            end).
    by rewrite IH.
Qed.

(** X19. The base URL a client holds is already stripped: building a client
    from it gives the same client again. *)
Theorem base_url_stable base key tmo :
  __init__ (base_url (__init__ base key tmo)) key tmo = __init__ base key tmo.
Proof. unfold __init__ at 1 3. simpl. by rewrite rstrip_idempotent. Qed.

(** X20. The constructor keeps a base URL as it is exactly when the URL
    does not end in a slash. *)
Theorem base_url_unchanged_iff base key tmo :
  base_url (__init__ base key tmo) = base ↔ ∀ t, base ≠ (t +:+ "/")%string.
Proof.
  simpl. split.
  - intros Hbase t. rewrite <- Hbase. apply rstrip_no_trailing_slash.
  - intros Hbase. destruct (rstrip_slashes base) as [[|n] Hn].
    + rewrite Hn at 2. by rewrite append_empty_r.
    + exfalso. apply (Hbase (rstrip "/" base +:+ slashes n)%string).
      rewrite Hn at 1. by rewrite slashes_snoc, append_assoc.
Qed.

Lemma rstrip_only_slashes n : rstrip "/" (slashes n) = ""%string.
Proof. induction n as [|n IH]; [reflexivity|]. simpl. by rewrite IH. Qed.

(** X21. The base URL of a client is empty exactly when the URL given to
    the constructor is empty or made of slashes only; the URL such a client
    passes on is the bare path. *)
Theorem base_url_empty_iff base key tmo :
  (base_url (__init__ base key tmo) = ""%string ↔ ∃ n, base = slashes n)
  ∧ ((∃ n, base = slashes n) →
     ∀ method path json,
       Call.url (call_of (__init__ base key tmo) method path json) = path).
Proof.
  assert ((∃ n, base = slashes n) → rstrip "/" base = ""%string) as Hslashes.
  { intros [n ->]. apply rstrip_only_slashes. }
  split; [split|].
  - simpl. intros Hbase. destruct (rstrip_slashes base) as [n Hn].
    exists n. by rewrite Hbase in Hn.
  - exact Hslashes.
  - intros Hn method path json. simpl. by rewrite (Hslashes Hn).
Qed.

End Fixed.

(** * Scenarios against a scripted session *)

Section Scenarios.
#[local] Existing Instances Mock.coercions Mock.library Mock.scripted.
Import Mock.

(** A 503: the executor raises the [HTTPError] of that response, and so
    does a method built on it. *)
Lemma _request_HTTPError_4xx_5xx_witness :
  let w := Mock.world [Reply unavailable] in
  send (call_of client "GET" "/api/event-types" None) (backend w)
    = (Reply unavailable, [])
  ∧ 400 ≤ status_code unavailable < 600
  ∧ (_request client "GET" "/api/event-types" None w).1 = inl (HTTPError unavailable)
  ∧ (get_event_types client w).1 = inl (HTTPError unavailable).
Proof.
  intros w.
  destruct (_request_HTTPError_4xx_5xx client "GET" "/api/event-types" None w
              unavailable [] eq_refl) as [Hexec Hfacade].
  assert (400 ≤ status_code unavailable < 600) as Hr by (simpl; lia).
  split; [reflexivity|]. split; [exact Hr|]. split.
  - rewrite Hexec. reflexivity.
  - unfold get_event_types. rewrite (Hfacade Hr). reflexivity.
Defined.

(** C1 as stated fails: a 304 is not a 2xx, and the executor returns the
    decoded body instead of raising. *)
Lemma _request_304_returns :
  ¬ (200 ≤ status_code not_modified < 300)
  ∧ (_request client "GET" "/api/event-types" None
       (Mock.world [Reply not_modified])).1 = inr (PList []).
Proof. split; [simpl; lia | reflexivity]. Qed.

Lemma get_subscription_404_witness :
  let w := Mock.world [Reply not_found] in
  send (call_of client "GET" "/api/subscriptions/s404" None) (backend w)
    = (Reply not_found, [])
  ∧ status_code not_found = 404
  ∧ (get_subscription client "s404" w).1 = inl (HTTPError not_found).
Proof.
  intros w. split; [reflexivity|]. split; [reflexivity|].
  destruct (get_subscription_404 client "s404" w not_found [] eq_refl eq_refl)
    as [Hres _].
  change ("/api/subscriptions/" +:+ "s404")%string with "/api/subscriptions/s404"%string in Hres.
  rewrite Hres. reflexivity.
Defined.



Lemma list_operations_all_or_nothing_witness :
  let w := Mock.world [Reply mixed_array] in
  200 ≤ status_code mixed_array < 300
  ∧ loads (text mixed_array) = Decoded (PList [PInt 1; PDict ∅])
  ∧ Exists (λ item, ∃ e, call_kwargs EventType item = inl e) [PInt 1; PDict ∅]
  ∧ fails_at_first_bad EventType [PInt 1; PDict ∅] (get_event_types client w).1.
Proof.
  intros w.
  assert (200 ≤ status_code mixed_array < 300) as Hr by (simpl; lia).
  assert (loads (text mixed_array) = Decoded (PList [PInt 1; PDict ∅])) as Hbody
    by (vm_compute; reflexivity).
  assert (Exists (λ item, ∃ e, call_kwargs EventType item = inl e) [PInt 1; PDict ∅])
    as Hex.
  { apply Exists_cons_hd. exists TypeError. reflexivity. }
  split; [exact Hr|]. split; [exact Hbody|]. split; [exact Hex|].
  exact (proj1 (list_operations_all_or_nothing client w mixed_array []
                  [PInt 1; PDict ∅] Hr Hbody) eq_refl Hex).
Defined.

(** C10 as stated fails: the second element of [[1, {}]] fails validation
    (an [EventType] from [{}] raises a [ValidationError] for its five
    missing fields), yet [get_event_types] raises [TypeError], from the
    first element. *)
Lemma get_event_types_TypeError :
  EventType ∅ =
    inl (ValidationError [("id", "missing"); ("name", "missing"); ("version", "missing");
                          ("schema", "missing"); ("created_at", "missing")]%string)
  ∧ loads (text mixed_array) = Decoded (PList [PInt 1; PDict ∅])
  ∧ (get_event_types client (Mock.world [Reply mixed_array])).1 = inl TypeError.
Proof. repeat split; vm_compute; reflexivity. Qed.





Lemma Subscription_rejects_witness :
  ("status"%string, Literal Subscription.statuses) ∈ Subscription_annotations
  ∧ cancelled !! "status"%string = Some (PStr "cancelled")
  ∧ has_shape (Literal Subscription.statuses) (PStr "cancelled") = false
  ∧ ∃ errs ty, Subscription cancelled = inl (ValidationError errs)
               ∧ ("status"%string, ty) ∈ errs.
Proof.
  assert (("status"%string, Literal Subscription.statuses) ∈ Subscription_annotations)
    as Hin by (unfold Subscription_annotations; do 3 apply list_elem_of_further;
               apply list_elem_of_here).
  assert (cancelled !! "status"%string = Some (PStr "cancelled")) as Hv
    by (vm_compute; reflexivity).
  assert (has_shape (Literal Subscription.statuses) (PStr "cancelled") = false) as Hs
    by (vm_compute; reflexivity).
  split; [exact Hin|]. split; [exact Hv|]. split; [exact Hs|].
  apply (Subscription_rejects cancelled "status" (Literal Subscription.statuses) Hin).
  right. exists (PStr "cancelled"). split; [exact Hv | exact Hs].
Defined.

Lemma EventType_roundtrip_witness :
  (∃ e, EventType order_placed = inr e ∧
     EventType.id e = "et1"%string ∧
     EventType.name e = "order.placed"%string ∧
     EventType.version e = "1.0"%string ∧
     EventType.schema e = PDict {[ "type"%string := PStr "object" ]} ∧
     EventType.created_at e = new_year)
  ∧ (∃ e, EventType order_placed_json = inr e ∧
       EventType.id e = "et1"%string ∧
       EventType.name e = "order.placed"%string ∧
       EventType.version e = "1.0"%string ∧
       EventType.schema e = PDict {[ "type"%string := PStr "object" ]} ∧
       EventType.created_at e = new_year).
Proof.
  split.
  - apply (EventType_roundtrip order_placed) with (c := PDatetime new_year);
      [vm_compute; reflexivity .. | by left].
  - apply (EventType_roundtrip order_placed_json)
      with (c := PStr "2024-01-01T00:00:00Z");
      [vm_compute; reflexivity .. | right; eexists; split; reflexivity].
Defined.

Lemma DispatchJob_completed_at_witness :
  ∃ job, DispatchJob (Mock.job "j1" "pending") = inr job
         ∧ DispatchJob.completed_at job = None.
Proof.
  destruct (DispatchJob (Mock.job "j1" "pending")) as [e|job] eqn:Hjob;
    [vm_compute in Hjob; discriminate|].
  exists job. split; [reflexivity|].
  destruct (DispatchJob_completed_at _ job Hjob) as (_ & _ & Habsent & _).
  apply Habsent. left. vm_compute. reflexivity.
Defined.

(** C9 as stated fails: the backend hands out a job that is pending and
    has a completion timestamp, and [get_dispatch_job] returns it as it
    is. *)
Lemma pending_job_with_completed_at :
  ∃ job, (get_dispatch_job client "j9" (Mock.world [Reply odd_job])).1 = inr job
         ∧ DispatchJob.status job = "pending"%string
         ∧ DispatchJob.completed_at job = Some Mock.new_year.
Proof. eexists. split; [vm_compute; reflexivity|]. split; reflexivity. Qed.

End Scenarios.

(** * More scenarios *)

Section MoreScenarios.
#[local] Existing Instances Mock.coercions Mock.rich_library Mock.scripted.
Import Mock.

Lemma transport_error_propagates_witness :
  let w := Mock.world [Raise "Timeout"] in
  send (call_for client GetDispatchJobs) (backend w) = (Raise "Timeout", [])
  ∧ (invoke client GetDispatchJobs w).1 = inl (Raised "Timeout").
Proof.
  intros w. split; [reflexivity|].
  by rewrite (transport_error_propagates client GetDispatchJobs w "Timeout" [] eq_refl).
Defined.

Lemma undecodable_body_witness :
  let w := Mock.world [Reply not_json] in
  ¬ (400 ≤ status_code not_json < 600)
  ∧ loads (text not_json) = NotJSON
  ∧ (invoke client (GetEventType "et1") w).1 = inl JSONDecodeError.
Proof.
  intros w.
  assert (¬ (400 ≤ status_code not_json < 600)) as Hr by (simpl; lia).
  assert (loads (text not_json) = NotJSON) as Hbody by (vm_compute; reflexivity).
  split; [exact Hr|]. split; [exact Hbody|].
  exact (undecodable_body client (GetEventType "et1") w not_json [] eq_refl Hr Hbody).
Defined.

Lemma error_status_fails_every_call_witness :
  let w := Mock.world [Reply unavailable] in
  400 ≤ status_code unavailable < 600
  ∧ (invoke client (CreateEventType "order.placed" "1.0" ∅) w).1
    = inl (HTTPError unavailable).
Proof.
  intros w. assert (400 ≤ status_code unavailable < 600) as Hr by (simpl; lia).
  split; [exact Hr|].
  by rewrite (error_status_fails_every_call client
                (CreateEventType "order.placed" "1.0" ∅) w unavailable [] eq_refl Hr).
Defined.

Lemma ValidationError_names_fields_witness :
  ∃ errs, EventType ∅ = inl (ValidationError errs) ∧ errs ≠ []
          ∧ errs.*1 `sublist_of` EventType_names.
Proof.
  destruct (EventType ∅) as [e|?] eqn:He; [|vm_compute in He; discriminate].
  destruct (proj1 (ValidationError_names_fields ∅ e) He) as (errs & -> & Hne & Hsub).
  exists errs. done.
Defined.

Lemma Subscription_fields_from_data_witness :
  ∃ s, Subscription subscription_s1 = inr s
       ∧ subscription_s1 !! "id"%string = Some (PStr (Subscription.id s))
       ∧ Subscription.status s ∈ Subscription.statuses.
Proof.
  destruct (Subscription subscription_s1) as [?|s] eqn:Hs; [vm_compute in Hs; discriminate|].
  exists s. split; [reflexivity|].
  destruct (Subscription_fields_from_data _ s Hs) as (Hid & _ & _ & _ & Hmem & _).
  done.
Defined.

Lemma EventType_fields_from_data_witness :
  (∃ e, EventType order_placed_json = inr e
        ∧ EventType.schema e = PDict {[ "type"%string := PStr "object" ]})
  ∧ (∃ e, @EventType coercions_shadowing order_placed_no_schema = inr e
          ∧ EventType.schema e = PMethod "BaseModel.schema").
Proof.
  split.
  - destruct (EventType order_placed_json) as [?|e] eqn:He;
      [vm_compute in He; discriminate|].
    exists e. split; [reflexivity|].
    destruct (EventType_fields_from_data _ e He) as (_ & _ & _ & Hschema & _).
    replace (order_placed_json !! "schema"%string)
      with (Some (PDict {[ "type"%string := PStr "object" ]})) in Hschema
      by (vm_compute; reflexivity).
    by destruct Hschema.
  - destruct (@EventType coercions_shadowing order_placed_no_schema) as [?|e] eqn:He;
      [vm_compute in He; discriminate|].
    exists e. split; [reflexivity|].
    destruct (@EventType_fields_from_data coercions_shadowing _ e He)
      as (_ & _ & _ & Hschema & _).
    replace (order_placed_no_schema !! "schema"%string) with (@None pyval) in Hschema
      by (vm_compute; reflexivity).
    simpl in Hschema. congruence.
Defined.

Lemma DispatchJob_fields_from_data_witness :
  ∃ j, DispatchJob (job "j1" "pending") = inr j
       ∧ (job "j1" "pending") !! "id"%string = Some (PStr (DispatchJob.id j)).
Proof.
  destruct (DispatchJob (job "j1" "pending")) as [?|j] eqn:Hj;
    [vm_compute in Hj; discriminate|].
  exists j. split; [reflexivity|].
  destruct (DispatchJob_fields_from_data _ j Hj) as (Hid & _). done.
Defined.

Lemma unknown_keys_ignored_witness :
  ("links"%string ∉ Subscription_names)
  ∧ Subscription (<[ "links"%string := PList [] ]> subscription_s1)
    = Subscription subscription_s1.
Proof.
  assert ("links"%string ∉ Subscription_names) as Hk.
  { unfold Subscription_names. intros Hin.
    repeat (apply elem_of_cons in Hin as [Hin|Hin]; [discriminate|]).
    by apply elem_of_nil in Hin. }
  split; [exact Hk|].
  exact (proj1 (proj2 (unknown_keys_ignored subscription_s1 "links" (PList []))) Hk).
Defined.

Lemma ApiResponse_accepts_witness :
  ∃ r, ApiResponse ({[ "data"%string := PInt 7 ]} : gmap string pyval) = inr r
       ∧ ApiResponse.data r = Some (PInt 7)
       ∧ ApiResponse.error r = None.
Proof.
  destruct (ApiResponse_accepts ({[ "data"%string := PInt 7 ]} : gmap string pyval))
    as (r & Hr & Hdata & Herror).
  { intros v Hv. vm_compute in Hv. discriminate. }
  exists r. split; [exact Hr|]. split; [exact Hdata | exact Herror].
Defined.

Lemma Subscription_accepts_witness :
  "paused"%string ∈ Subscription.statuses
  ∧ Subscription (<[ "status"%string := PStr "paused" ]> subscription_s1)
    = inr {| Subscription.id := "s1"; Subscription.event_type_id := "et1";
             Subscription.endpoint := "https://x/y"; Subscription.status := "paused";
             Subscription.created_at := new_year |}.
Proof.
  assert ("paused"%string ∈ Subscription.statuses) as Hmem
    by (unfold Subscription.statuses; apply list_elem_of_further, list_elem_of_here).
  split; [exact Hmem|].
  apply (Subscription_accepts _ "s1" "et1" "https://x/y" "paused"
           (PStr "2024-01-01T00:00:00Z") new_year);
    try (vm_compute; reflexivity); [exact Hmem|].
  right. eexists. split; reflexivity.
Defined.

Lemma DispatchJob_accepts_witness :
  "completed"%string ∈ DispatchJob.statuses
  ∧ DispatchJob
      ({[ "id" := PStr "j2"; "event_id" := PStr "e1"; "subscription_id" := PStr "s1";
          "status" := PStr "completed"; "attempts" := PInt 3;
          "created_at" := PDatetime new_year;
          "completed_at" := PDatetime new_year ]} : gmap string pyval)
    = inr {| DispatchJob.id := "j2"; DispatchJob.event_id := "e1";
             DispatchJob.subscription_id := "s1"; DispatchJob.status := "completed";
             DispatchJob.attempts := 3; DispatchJob.created_at := new_year;
             DispatchJob.completed_at := Some new_year |}.
Proof.
  assert ("completed"%string ∈ DispatchJob.statuses) as Hmem
    by (unfold DispatchJob.statuses; do 2 apply list_elem_of_further;
        apply list_elem_of_here).
  split; [exact Hmem|].
  apply (DispatchJob_accepts _ "j2" "e1" "s1" "completed" 3 new_year (Some new_year));
    try (vm_compute; reflexivity). exact Hmem.
Defined.

Lemma failures_classified_witness :
  let w := Mock.world [Reply huge_integer] in
  (invoke client GetSubscriptions w).1 = inl (Raised "ValueError")
  ∧ ∃ r, (send (call_for client GetSubscriptions) (backend w)).1 = Reply r
         ∧ ¬ (400 ≤ status_code r < 600)
         ∧ loads (text r) = DecoderError "ValueError".
Proof.
  intros w.
  assert ((invoke client GetSubscriptions w).1 = inl (Raised "ValueError")) as Hres
    by (vm_compute; reflexivity).
  split; [exact Hres|].
  destruct (failures_classified client GetSubscriptions w _ Hres)
    as [(cls & Hsend & _) | (r & Hsend & Hr)]; [vm_compute in Hsend; discriminate|].
  exists r. split; [exact Hsend|].
  assert (r = huge_integer) as ->
    by (vm_compute in Hsend; injection Hsend as <-; reflexivity).
  split; [simpl; lia | vm_compute; reflexivity].
Defined.

Lemma answers_have_declared_statuses_witness :
  let w := Mock.world [Reply three_jobs] in
  ∃ a, (invoke client GetDispatchJobs w).1 = inr a ∧ declared_statuses a.
Proof.
  intros w.
  destruct (invoke client GetDispatchJobs w).1 as [?|a] eqn:Ha;
    [vm_compute in Ha; discriminate|].
  exists a. split; [reflexivity|].
  exact (answers_have_declared_statuses client GetDispatchJobs w a Ha).
Defined.

Lemma list_call_on_other_body_witness :
  (let w := Mock.world [Reply enveloped] in
   loads (text enveloped)
     = Decoded (PDict {[ "data"%string := PList []; "error"%string := PNone ]})
   ∧ (invoke client GetEventTypes w).1 = inl TypeError)
  ∧ (let w := Mock.world [Reply empty_object] in
     loads (text empty_object) = Decoded (PDict ∅)
     ∧ (invoke client GetEventTypes w).1 = inr (EventTypes [])).
Proof.
  assert (¬ (400 ≤ 200 < 600)) as Hr by lia.
  split; intros w.
  - assert (loads (text enveloped)
            = Decoded (PDict {[ "data"%string := PList []; "error"%string := PNone ]}))
      as Hbody by (vm_compute; reflexivity).
    split; [exact Hbody|].
    rewrite (list_call_on_other_body client GetEventTypes w enveloped [] _
               eq_refl eq_refl Hr Hbody); [reflexivity | discriminate].
  - assert (loads (text empty_object) = Decoded (PDict ∅)) as Hbody
      by (vm_compute; reflexivity).
    split; [exact Hbody|].
    rewrite (list_call_on_other_body client GetEventTypes w empty_object [] _
               eq_refl eq_refl Hr Hbody); [reflexivity | discriminate].
Defined.

Lemma record_call_needs_object_witness :
  let w := Mock.world [Reply empty_array] in
  loads (text empty_array) = Decoded (PList [])
  ∧ (invoke client (GetSubscription "s1") w).1 = inl TypeError.
Proof.
  intros w.
  assert (loads (text empty_array) = Decoded (PList [])) as Hbody by (vm_compute; reflexivity).
  split; [exact Hbody|].
  apply (record_call_needs_object client (GetSubscription "s1") w empty_array []
           (PList []) eq_refl eq_refl); [simpl; lia | exact Hbody | discriminate].
Defined.



Lemma create_subscription_status_unchecked_witness :
  let w := Mock.world [Reply cancelled_created] in
  ("cancelled"%string ∉ Subscription.statuses)
  ∧ ∃ errs,
      (create_subscription client "et1" "https://x/y" (Some "cancelled"%string) w).1
        = inl (ValidationError errs)
      ∧ ("status"%string, "literal_error"%string) ∈ errs.
Proof.
  intros w.
  assert ("cancelled"%string ∉ Subscription.statuses) as Hout.
  { unfold Subscription.statuses. intros Hin.
    repeat (apply elem_of_cons in Hin as [Hin|Hin]; [discriminate|]).
    by apply elem_of_nil in Hin. }
  split; [exact Hout|].
  assert (loads (text cancelled_created) = Decoded (PDict cancelled)) as Hbody
    by (vm_compute; reflexivity).
  assert (cancelled !! "status"%string = Some (PStr "cancelled")) as Hd
    by (vm_compute; reflexivity).
  destruct (create_subscription_status_unchecked client "et1" "https://x/y" "cancelled" w
              cancelled_created [] cancelled Hout eq_refl) as (errs & Hres & Hin);
    [simpl; lia | exact Hbody | exact Hd |].
  exists errs. rewrite Hres. done.
Defined.

Lemma other_headers_kept_witness :
  CaseInsensitiveDict.lower "accept" ≠ "authorization"%string
  ∧ ∃ made,
      session_calls (run (__init__ "http://h" (Some "secret"%string) None)
              [GetEventTypes; GetDispatchJob "j1"] (Mock.world [])) = made
      ∧ Forall (λ call,
          CaseInsensitiveDict.get "accept" (Call.session_headers call)
          = Some "*/*"%string) made.
Proof.
  assert (CaseInsensitiveDict.lower "accept" ≠ "authorization"%string) as Hh
    by discriminate.
  split; [exact Hh|].
  destruct (other_headers_kept "http://h" (Some "secret"%string) None
              [GetEventTypes; GetDispatchJob "j1"] (Mock.world []) "accept" Hh)
    as (made & Hcalls & _ & Hall).
  exists made. split; [exact Hcalls|]. exact Hall.
Defined.

Lemma base_url_unchanged_iff_witness :
  (∀ t, "http://h"%string ≠ (t +:+ "/")%string)
  ∧ base_url (__init__ "http://h" None None) = "http://h"%string.
Proof.
  assert (base_url (__init__ "http://h" None None) = "http://h"%string) as Hbase
    by reflexivity.
  split; [|exact Hbase].
  exact (proj1 (base_url_unchanged_iff "http://h" None None) Hbase).
Defined.

Lemma base_url_empty_iff_witness :
  (∃ n, "//"%string = slashes n)
  ∧ base_url (__init__ "//" None None) = ""%string
  ∧ Call.url (call_of (__init__ "//" None None) "GET" "/api/event-types" None)
    = "/api/event-types"%string.
Proof.
  assert (∃ n, "//"%string = slashes n) as Hn by (by exists 2%nat).
  destruct (base_url_empty_iff "//" None None) as [Hiff Hurl].
  split; [exact Hn|]. split; [exact (proj2 Hiff Hn)|].
  exact (Hurl Hn "GET"%string "/api/event-types"%string None).
Defined.

End MoreScenarios.
